(** * A shallow embedding of the forward proxy [proxy.py]

    The development models the connection handler of
    [HighPerformanceProxy]: [handle_client], [handle_http],
    [handle_https] and [relay_data].  Sockets and the network are an
    environment that answers every socket call; the handler is a
    program in a small state-and-exception monad that records each
    socket call in a trace. *)

From Stdlib Require Import ZArith List Bool Lia String Ascii.
Import ListNotations.
Open Scope Z_scope.

(** ** Data

    A Python [bytes] object is a list of integers in [0, 256); a Python
    [str] is a list of Unicode code points. *)

Definition bytes := list Z.
Definition str := list Z.

Definition lit (s : string) : str :=
  map (fun a => Z.of_N (N_of_ascii a)) (list_ascii_of_string s).

Definition CRLF : str := [13; 10].
Definition SPACE : str := [32].
Definition COLON : str := [58].
Definition CONNECT : str := Eval cbv in lit "CONNECT".
Definition HTTP_SCHEME : str := Eval cbv in lit "http://".
Definition HOST_PREFIX : str := Eval cbv in lit "host:".

(** The two responses the handler itself produces (proxy.py lines 127,
    139, 146), as the bytes of [response.encode('utf-8')]: both are
    ASCII, so the encoding is the list of their character codes. *)

Definition established_response : bytes :=
  Eval cbv in lit "HTTP/1.1 200 Connection Established" ++ CRLF ++ CRLF.
Definition error_response : bytes :=
  Eval cbv in lit "HTTP/1.1 500 Internal Server Error" ++ CRLF ++ CRLF.

(** ** Python string operations used by the handler *)

(** [s.startswith(p)] *)
Fixpoint startswith (p s : str) : bool :=
  match p, s with
  | [], _ => true
  | _ :: _, [] => false
  | a :: p', b :: s' => (a =? b) && startswith p' s'
  end.

(** [s.split(sep, maxsplit)] for a non-empty separator: a left-to-right
    scan for non-overlapping occurrences of [sep].  [skip] counts the
    characters of a matched separator still to be dropped, [budget] is
    the number of splits left ([None]: no limit) and [cur] the field
    being collected. *)
Fixpoint split_go (sep : str) (skip : nat) (budget : option nat)
                  (cur : str) (s : str) : list str :=
  match s with
  | [] => [cur]
  | c :: s' =>
    match skip with
    | S k => split_go sep k budget cur s'
    | O =>
      if startswith sep s then
        match budget with
        | Some O => split_go sep 0 budget (cur ++ [c]) s'
        | Some (S b) => cur :: split_go sep (List.length sep - 1) (Some b) [] s'
        | None => cur :: split_go sep (List.length sep - 1) None [] s'
        end
      else split_go sep 0 budget (cur ++ [c]) s'
    end
  end.

Definition str_split (sep : str) (s : str) : list str :=
  split_go sep 0 None [] s.

Definition str_split_max (sep : str) (maxsplit : nat) (s : str) : list str :=
  split_go sep 0 (Some maxsplit) [] s.

(** ** The UTF-8 codec

    [recv(...).decode('utf-8', errors='ignore')] and
    [request.encode('utf-8')].  The decoder follows the codec's case
    analysis on the lead byte; with [errors='ignore'] the bytes of an
    ill-formed sequence are dropped and decoding resumes behind them:
    one byte for an invalid start byte, the well-formed prefix for an
    invalid continuation byte, everything up to the end of the input
    for a sequence cut short by it. *)

Definition is_continuation (b : Z) : bool := (0x80 <=? b) && (b <? 0xC0).

Fixpoint utf8_decode_ignore (s : bytes) : str :=
  match s with
  | [] => []
  | ch :: s1 =>
    if ch <? 0x80 then ch :: utf8_decode_ignore s1
    else if ch <? 0xC2 then utf8_decode_ignore s1
    else if ch <? 0xE0 then
      match s1 with
      | [] => []
      | ch2 :: s2 =>
        if is_continuation ch2
        then (ch * 64 + ch2 - (0xC0 * 64 + 0x80)) :: utf8_decode_ignore s2
        else utf8_decode_ignore s1
      end
    else if ch <? 0xF0 then
      match s1 with
      | [] => []
      | ch2 :: s2 =>
        if negb (is_continuation ch2)
           || (if ch2 <? 0xA0 then ch =? 0xE0 else ch =? 0xED)
        then utf8_decode_ignore s1
        else
          match s2 with
          | [] => []
          | ch3 :: s3 =>
            if is_continuation ch3
            then (ch * 4096 + ch2 * 64 + ch3
                  - (0xE0 * 4096 + 0x80 * 64 + 0x80)) :: utf8_decode_ignore s3
            else utf8_decode_ignore s2
          end
      end
    else if ch <? 0xF5 then
      match s1 with
      | [] => []
      | ch2 :: s2 =>
        if negb (is_continuation ch2)
           || (if ch2 <? 0x90 then ch =? 0xF0 else ch =? 0xF4)
        then utf8_decode_ignore s1
        else
          match s2 with
          | [] => []
          | ch3 :: s3 =>
            if negb (is_continuation ch3) then utf8_decode_ignore s2
            else
              match s3 with
              | [] => []
              | ch4 :: s4 =>
                if is_continuation ch4
                then (ch * 262144 + ch2 * 4096 + ch3 * 64 + ch4
                      - (0xF0 * 262144 + 0x80 * 4096 + 0x80 * 64 + 0x80))
                     :: utf8_decode_ignore s4
                else utf8_decode_ignore s3
              end
          end
      end
    else utf8_decode_ignore s1
  end.

(** Encoding one code point; [None] stands for [UnicodeEncodeError]
    (a surrogate) or a value that is no code point at all. *)
Definition utf8_encode_char (c : Z) : option bytes :=
  if c <? 0 then None
  else if c <? 0x80 then Some [c]
  else if c <? 0x800 then Some [0xC0 + c / 64; 0x80 + c mod 64]
  else if (0xD800 <=? c) && (c <=? 0xDFFF) then None
  else if c <? 0x10000 then
    Some [0xE0 + c / 4096; 0x80 + (c / 64) mod 64; 0x80 + c mod 64]
  else if c <? 0x110000 then
    Some [0xF0 + c / 262144; 0x80 + (c / 4096) mod 64;
          0x80 + (c / 64) mod 64; 0x80 + c mod 64]
  else None.

Fixpoint utf8_encode (s : str) : option bytes :=
  match s with
  | [] => Some []
  | c :: s' =>
    match utf8_encode_char c, utf8_encode s' with
    | Some b, Some bs => Some (b ++ bs)
    | _, _ => None
    end
  end.

(** ** Python library functions taken as parameters

    The handler calls four library functions whose behaviour rests on
    tables that are not part of the repository (the Unicode case and
    whitespace tables, the integer syntax, the URL grammar).  They are
    parameters of the model:
    - [str_lower] is [line.lower()];
    - [str_strip] is [s.strip()];
    - [int_of_str] is [int(port)], [None] when it raises [ValueError];
    - [url_host_port] is [urlparse(url)] followed by [.hostname] and
      [.port]: [None] when one of the three raises [ValueError],
      otherwise the host name ([None] for Python's [None]) and the
      port ([None] for Python's [None]). *)

Record PyLib := {
  str_lower : str -> str;
  str_strip : str -> str;
  int_of_str : str -> option Z;
  url_host_port : str -> option (option str * option Z)
}.

(** ** Sockets, events and the environment *)

(** A handler works on two sockets: the accepted [client_socket] and
    the [server_socket] it opens to the upstream. *)
Inductive Sock := Client | Server.

Definition Sock_eqb (a b : Sock) : bool :=
  match a, b with
  | Client, Client | Server, Server => true
  | _, _ => false
  end.

(** The peer of a socket in the relay: line 161, [sock is client_socket]. *)
Definition other (s : Sock) : Sock :=
  match s with Client => Server | Server => Client end.

(** One entry per socket call, with what the call was given and how it
    ended.  [EvRecv s None], [EvSelect None] and a [false] flag stand
    for a call that raised; [EvSend s d true] is a call of [s.send(d)]
    that returned (the handler discards the count [send] returns). *)
Inductive Event :=
| EvRecv (s : Sock) (r : option bytes)
| EvSend (s : Sock) (d : bytes) (ok : bool)
| EvSocket (ok : bool)
| EvConnect (host : option str) (port : Z) (ok : bool)
| EvSelect (r : option (list Sock * list Sock))
| EvClose (s : Sock) (ok : bool).

(** The environment decides every socket call from the history of the
    calls made so far. *)
Record Env := {
  on_recv : list Event -> Sock -> Z -> option bytes;
  on_send : list Event -> Sock -> bytes -> bool;
  on_socket : list Event -> bool;
  on_connect : list Event -> option str -> Z -> bool;
  on_select : list Event -> option (list Sock * list Sock);
  on_close : list Event -> Sock -> bool
}.

(** [self.stats] *)
Record Stats := {
  total_requests : Z;
  active_connections : Z;
  errors : Z
}.

Record World := {
  stats : Stats;
  trace : list Event
}.

Inductive Exn :=
| IndexError | ValueError | TypeError | OSError
| UnicodeEncodeError | HostNotFound.

(** How a piece of the handler ends: it returns, it raises, or the
    relay loop is still running when the fuel is spent. *)
Inductive Outcome (A : Type) :=
| Ret (a : A)
| Raise (e : Exn)
| OutOfFuel.
Arguments Ret {A} a.
Arguments Raise {A} e.
Arguments OutOfFuel {A}.

Definition M (A : Type) := World -> Outcome A * World.

Definition ret {A} (a : A) : M A := fun w => (Ret a, w).
Definition raise {A} (e : Exn) : M A := fun w => (Raise e, w).
Definition out_of_fuel {A} : M A := fun w => (OutOfFuel, w).

Definition bind {A B} (m : M A) (f : A -> M B) : M B :=
  fun w =>
    match m w with
    | (Ret a, w1) => f a w1
    | (Raise e, w1) => (Raise e, w1)
    | (OutOfFuel, w1) => (OutOfFuel, w1)
    end.

Notation "x <- m ;; k" := (bind m (fun x => k))
  (at level 61, m at next level, right associativity).
Notation "m ;; k" := (bind m (fun _ => k))
  (at level 61, right associativity).

(** [try: m except Exception as e: h e] *)
Definition try_except {A} (m : M A) (h : Exn -> M A) : M A :=
  fun w =>
    match m w with
    | (Raise e, w1) => h e w1
    | r => r
    end.

(** [try: m finally: fin].  The [finally] block runs when [m] returns
    or raises; an exception of [fin] replaces the outcome of [m]. *)
Definition try_finally {A} (m : M A) (fin : M unit) : M A :=
  fun w =>
    match m w with
    | (OutOfFuel, w1) => (OutOfFuel, w1)
    | (o, w1) =>
      match fin w1 with
      | (Ret _, w2) => (o, w2)
      | (Raise e, w2) => (Raise e, w2)
      | (OutOfFuel, w2) => (OutOfFuel, w2)
      end
    end.

Definition log_event (e : Event) (w : World) : World :=
  {| stats := stats w; trace := trace w ++ [e] |}.

Definition with_stats (f : Stats -> Stats) (w : World) : World :=
  {| stats := f (stats w); trace := trace w |}.

Definition update_stats (f : Stats -> Stats) : M unit :=
  fun w => (Ret tt, with_stats f w).

Definition bump_active (d : Z) (s : Stats) : Stats :=
  {| total_requests := total_requests s;
     active_connections := active_connections s + d;
     errors := errors s |}.

Definition bump_total (s : Stats) : Stats :=
  {| total_requests := total_requests s + 1;
     active_connections := active_connections s;
     errors := errors s |}.

Definition bump_errors (s : Stats) : Stats :=
  {| total_requests := total_requests s;
     active_connections := active_connections s;
     errors := errors s + 1 |}.

(** [self.stats['active_connections'] += d] *)
Definition add_active (d : Z) : M unit := update_stats (bump_active d).

(** [self.stats['total_requests'] += 1] *)
Definition incr_total : M unit := update_stats bump_total.

(** [self.stats['errors'] += 1] *)
Definition incr_errors : M unit := update_stats bump_errors.

Inductive Route := ViaHttps | ViaHttp.

(** Line 88: [first_line.startswith('CONNECT')]. *)
Definition route_of (first_line : str) : Route :=
  if startswith CONNECT first_line then ViaHttps else ViaHttp.

(** Line 85: [request.split('\r\n')[0]]; [split] never returns an
    empty list, so the index cannot fail. *)
Definition first_line_of (request : str) : str :=
  hd [] (str_split CRLF request).

(** Line 86: the fields of [first_line.split(' ')]. *)
Definition method_token (first_line : str) : str :=
  hd [] (str_split SPACE first_line).
Definition target_token (first_line : str) : option str :=
  nth_error (str_split SPACE first_line) 1.

Inductive Flow := Continue | Return.

Definition is_empty (d : list Z) : bool :=
  match d with [] => true | _ :: _ => false end.

Section Handler.

Variable py : PyLib.
Variable buffer_size : Z.
Variable env : Env.

(** *** Socket calls *)

Definition recv (s : Sock) : M bytes :=
  fun w =>
    match on_recv env (trace w) s buffer_size with
    | Some d => (Ret d, log_event (EvRecv s (Some d)) w)
    | None => (Raise OSError, log_event (EvRecv s None) w)
    end.

Definition send (s : Sock) (d : bytes) : M unit :=
  fun w =>
    if on_send env (trace w) s d
    then (Ret tt, log_event (EvSend s d true) w)
    else (Raise OSError, log_event (EvSend s d false) w).

(** [socket.socket(socket.AF_INET, socket.SOCK_STREAM)] *)
Definition new_socket : M unit :=
  fun w =>
    if on_socket env (trace w)
    then (Ret tt, log_event (EvSocket true) w)
    else (Raise OSError, log_event (EvSocket false) w).

(** [server_socket.connect((host, port))] *)
Definition connect (host : option str) (port : Z) : M unit :=
  fun w =>
    if on_connect env (trace w) host port
    then (Ret tt, log_event (EvConnect host port true) w)
    else (Raise OSError, log_event (EvConnect host port false) w).

Definition select : M (list Sock * list Sock) :=
  fun w =>
    match on_select env (trace w) with
    | Some r => (Ret r, log_event (EvSelect (Some r)) w)
    | None => (Raise OSError, log_event (EvSelect None) w)
    end.

Definition close (s : Sock) : M unit :=
  fun w =>
    if on_close env (trace w) s
    then (Ret tt, log_event (EvClose s true) w)
    else (Raise OSError, log_event (EvClose s false) w).

(** *** [relay_data], lines 149-173 *)

(** Lines 156-166: the [for] loop over the sockets [select] reported
    readable.  [Return] is the [return] of lines 160 and 166. *)
Fixpoint relay_ready (ready : list Sock) : M Flow :=
  match ready with
  | [] => ret Continue
  | sock :: rest =>
    flow <- try_except
              (data <- recv sock ;;
               if is_empty data then ret Return
               else (send (other sock) data ;; ret Continue))
              (fun _ => ret Return) ;;
    match flow with
    | Return => ret Return
    | Continue => relay_ready rest
    end
  end.

(** Lines 152-166: [while True]; one unit of fuel per iteration. *)
Fixpoint relay_loop (fuel : nat) : M unit :=
  match fuel with
  | O => out_of_fuel
  | S fuel' =>
    r <- select ;;
    match snd r with
    | _ :: _ => ret tt
    | [] =>
      flow <- relay_ready (fst r) ;;
      match flow with
      | Return => ret tt
      | Continue => relay_loop fuel'
      end
    end
  end.

Definition relay_data (fuel : nat) : M unit :=
  try_finally
    (try_except (relay_loop fuel) (fun _ => ret tt))
    (try_except (close Server) (fun _ => ret tt)).

(** *** [handle_https], lines 130-147 *)

(** Lines 132-133: [host, port = url.split(':')] and [int(port)]. *)
Definition https_target (url : str) : Exn + (option str * Z) :=
  match str_split COLON url with
  | [host; port] =>
    match int_of_str py port with
    | Some p => inr (Some host, p)
    | None => inl ValueError
    end
  | _ => inl ValueError
  end.

Definition lift_target (t : Exn + (option str * Z)) : M (option str * Z) :=
  match t with
  | inl e => raise e
  | inr hp => ret hp
  end.

Definition handle_https (fuel : nat) (url : str) : M unit :=
  try_except
    (hp <- lift_target (https_target url) ;;
     new_socket ;;
     connect (fst hp) (snd hp) ;;
     send Client established_response ;;
     relay_data fuel)
    (fun _ => send Client error_response).

(** *** [handle_http], lines 103-128 *)

(** Line 111: the lines whose lower-cased text starts with [host:]. *)
Definition host_lines (request : str) : list str :=
  filter (fun line => startswith HOST_PREFIX (str_lower py line))
         (str_split CRLF request).

(** Lines 105-116. *)
Definition http_target (request url : str) : Exn + (option str * Z) :=
  if startswith HTTP_SCHEME url then
    match url_host_port py url with
    | None => inl ValueError
    | Some (host, port) =>
      inr (host, match port with
                 | Some p => if p =? 0 then 80 else p
                 | None => 80
                 end)
    end
  else
    match host_lines request with
    | line :: _ =>
      match nth_error (str_split_max COLON 1 line) 1 with
      | Some h => inr (Some (str_strip py h), 80)
      | None => inl IndexError
      end
    | [] => inl HostNotFound
    end.

(** [request.encode('utf-8')] *)
Definition encode_request (request : str) : M bytes :=
  match utf8_encode request with
  | Some b => ret b
  | None => raise UnicodeEncodeError
  end.

Definition handle_http (fuel : nat) (request url : str) : M unit :=
  try_except
    (hp <- lift_target (http_target request url) ;;
     new_socket ;;
     connect (fst hp) (snd hp) ;;
     data <- encode_request request ;;
     send Server data ;;
     relay_data fuel)
    (fun _ => send Client error_response).

(** *** [handle_client], lines 74-101

    [client_socket.settimeout(30)] (line 77) shows in the model as the
    environment's freedom to let a [recv] raise; the [logging] calls
    have no effect on sockets or counters and are left out. *)

(** Lines 88-91. *)
Definition dispatch (fuel : nat) (request first_line url : str) : M unit :=
  match route_of first_line with
  | ViaHttps => handle_https fuel url
  | ViaHttp => handle_http fuel request url
  end.

(** Lines 79-91: the [try] block behind the counter increment. *)
Definition serve (fuel : nat) : M unit :=
  raw <- recv Client ;;
  let request := utf8_decode_ignore raw in
  if is_empty request then ret tt
  else
    incr_total ;;
    let first_line := first_line_of request in
    match target_token first_line with
    | None => raise IndexError
    | Some url => dispatch fuel request first_line url
    end.

(** Lines 96-101: the [finally] block. *)
Definition cleanup : M unit :=
  try_except (close Client) (fun _ => ret tt) ;;
  add_active (-1).

Definition handle_client (fuel : nat) : M unit :=
  try_finally
    (try_except (add_active 1 ;; serve fuel) (fun _ => incr_errors))
    cleanup.

(** The handler in two steps: line 76, which cannot raise, and the
    rest of the [try] statement. *)
Definition handler_enter : M unit := add_active 1.

Definition handler_rest (fuel : nat) : M unit :=
  try_finally (try_except (serve fuel) (fun _ => incr_errors)) cleanup.

(** The pair the handler passes to [connect] for a request, when the
    request gets that far (lines 85-91, 105-116 and 132-133). *)
Definition upstream_target (request : str) : option (option str * Z) :=
  match target_token (first_line_of request) with
  | None => None
  | Some url =>
    match
      match route_of (first_line_of request) with
      | ViaHttps => https_target url
      | ViaHttp => http_target request url
      end
    with
    | inr hp => Some hp
    | inl _ => None
    end
  end.

End Handler.

(** ** Several handlers over the shared counters

    The worker pool runs many handlers over the one [self.stats].  A
    handler is in flight from its line 76 to the end of its [finally]
    block; the two steps of a handler are taken one at a time, each
    as a whole (no two updates of a counter overlap). *)








(** ** Reading a trace *)

(** The buffers handed to [s.send], in the order of the calls. *)
Definition sends_to (s : Sock) (evs : list Event) : list bytes :=
  flat_map (fun e =>
    match e with
    | EvSend s' d _ => if Sock_eqb s s' then [d] else []
    | _ => []
    end) evs.

(** The results of the calls of [s.recv] that returned. *)
Definition recvs_from (s : Sock) (evs : list Event) : list bytes :=
  flat_map (fun e =>
    match e with
    | EvRecv s' (Some d) => if Sock_eqb s s' then [d] else []
    | _ => []
    end) evs.

Definition nonempty_chunks (l : list bytes) : list bytes :=
  filter (fun d => negb (is_empty d)) l.

Definition is_close (s : Sock) (e : Event) : bool :=
  match e with
  | EvClose s' _ => Sock_eqb s s'
  | _ => false
  end.

Definition is_send (e : Event) : bool :=
  match e with
  | EvSend _ _ _ => true
  | _ => false
  end.

(** The events of relay iterations after which the loop goes on: a
    [select] without error sockets, or a non-empty chunk read from one
    socket and handed whole to the other. *)
Inductive pumped : list Event -> Prop :=
| pumped_nil : pumped []
| pumped_select r q :
    pumped q -> pumped (EvSelect (Some (r, [])) :: q)
| pumped_chunk s d q :
    d <> [] -> pumped q ->
    pumped (EvRecv s (Some d) :: EvSend (other s) d true :: q).

(** The events of the step that ends the relay. *)
Inductive stopped : list Event -> Prop :=
| stopped_select_raise : stopped [EvSelect None]
| stopped_select_error r e :
    e <> [] -> stopped [EvSelect (Some (r, e))]
| stopped_recv_raise s : stopped [EvRecv s None]
| stopped_recv_eof s : stopped [EvRecv s (Some [])]
| stopped_send_raise s d :
    d <> [] -> stopped [EvRecv s (Some d); EvSend (other s) d false].

(** The calls after which the relay does not go on: a zero-length
    read, a call that raised, a [select] that reports error sockets. *)
Definition ends_relay (e : Event) : bool :=
  match e with
  | EvRecv _ None | EvRecv _ (Some []) => true
  | EvSelect None | EvSelect (Some (_, _ :: _)) => true
  | EvSend _ _ false => true
  | _ => false
  end.

(** ** Concrete library and environments for running the model *)

(** The library functions on ASCII text, where they agree with
    Python's: case folding of [A-Z], stripping of ASCII white space,
    unsigned decimal integers, and URLs of the shape
    [http://host[:port][/...]]. *)

Definition ascii_lower (s : str) : str :=
  map (fun c => if (65 <=? c) && (c <=? 90) then c + 32 else c) s.

Definition is_ascii_space (c : Z) : bool :=
  ((9 <=? c) && (c <=? 13)) || ((28 <=? c) && (c <=? 32)).

Fixpoint lstrip (s : str) : str :=
  match s with
  | [] => []
  | c :: s' => if is_ascii_space c then lstrip s' else s
  end.

Definition ascii_strip (s : str) : str := rev (lstrip (rev (lstrip s))).

Fixpoint digits_value (acc : Z) (s : str) : option Z :=
  match s with
  | [] => Some acc
  | c :: s' =>
    if (48 <=? c) && (c <=? 57)
    then digits_value (acc * 10 + (c - 48)) s'
    else None
  end.

Definition decimal_int (s : str) : option Z :=
  match s with
  | [] => None
  | _ :: _ => digits_value 0 s
  end.

Fixpoint authority (s : str) : str :=
  match s with
  | [] => []
  | c :: s' =>
    if (c =? 47) || (c =? 63) || (c =? 35) then [] else c :: authority s'
  end.

Definition simple_url_host_port (url : str) : option (option str * option Z) :=
  match str_split COLON (authority (skipn 7 url)) with
  | [h] => Some (if is_empty h then None else Some (ascii_lower h), None)
  | [h; p] =>
    let host := if is_empty h then None else Some (ascii_lower h) in
    if is_empty p then Some (host, None)
    else
      match decimal_int p with
      | Some n => if n <=? 65535 then Some (host, Some n) else None
      | None => None
      end
  | _ => None
  end.

Definition ascii_py : PyLib :=
  {| str_lower := ascii_lower;
     str_strip := ascii_strip;
     int_of_str := decimal_int;
     url_host_port := simple_url_host_port |}.

(** A scripted environment: the k-th [recv] on a socket returns the
    k-th entry of that socket's script, the k-th [select] the k-th
    entry of [selects]; a call behind the end of its script raises. *)
Record Script := {
  client_reads : list (option bytes);
  server_reads : list (option bytes);
  selects : list (option (list Sock * list Sock));
  socket_ok : bool;
  connect_ok : bool;
  client_send_ok : bool;
  server_send_ok : bool;
  close_ok : bool
}.

Definition count_recvs (s : Sock) (hist : list Event) : nat :=
  List.length (filter (fun e =>
    match e with
    | EvRecv s' _ => Sock_eqb s s'
    | _ => false
    end) hist).

Definition count_selects (hist : list Event) : nat :=
  List.length (filter (fun e =>
    match e with
    | EvSelect _ => true
    | _ => false
    end) hist).

Definition scripted (sc : Script) : Env :=
  {| on_recv hist s _ :=
       nth (count_recvs s hist)
           (match s with
            | Client => client_reads sc
            | Server => server_reads sc
            end) None;
     on_send _ s _ :=
       match s with
       | Client => client_send_ok sc
       | Server => server_send_ok sc
       end;
     on_socket _ := socket_ok sc;
     on_connect _ _ _ := connect_ok sc;
     on_select hist := nth (count_selects hist) (selects sc) None;
     on_close _ _ := close_ok sc |}.

Definition stats0 : Stats :=
  {| total_requests := 0; active_connections := 0; errors := 0 |}.

Definition world0 : World := {| stats := stats0; trace := [] |}.

(** The handler of the entry point: [BUFFER_SIZE = 16384]. *)
Definition run_handler (sc : Script) (fuel : nat) : Outcome unit * World :=
  handle_client ascii_py 16384 (scripted sc) fuel world0.

(** Scenario B of the specification: a tunnel that carries one chunk
    each way before the client closes. *)
Definition tunnel_script : Script :=
  {| client_reads :=
       [Some (lit "CONNECT example.com:443 HTTP/1.1" ++ CRLF ++ CRLF);
        Some (lit "hello"); Some []];
     server_reads := [Some (lit "world")];
     selects := [Some ([Client], []); Some ([], []);
                 Some ([Server; Client], [])];
     socket_ok := true; connect_ok := true;
     client_send_ok := true; server_send_ok := true; close_ok := true |}.

(** Scenario A: an absolute-URI request and the upstream's reply. *)
Definition forward_script : Script :=
  {| client_reads :=
       [Some (lit "GET http://example.com/ HTTP/1.1" ++ CRLF
              ++ lit "Host: example.com" ++ CRLF ++ CRLF)];
     server_reads := [Some (lit "HTTP/1.1 200 OK" ++ CRLF ++ CRLF
                            ++ lit "Hello"); Some []];
     selects := [Some ([Server], []); Some ([Server], [])];
     socket_ok := true; connect_ok := true;
     client_send_ok := true; server_send_ok := true; close_ok := true |}.


Definition all_ok (reads : list (option bytes)) : Script :=
  {| client_reads := reads; server_reads := []; selects := [];
     socket_ok := true; connect_ok := true;
     client_send_ok := true; server_send_ok := true; close_ok := true |}.

(** The client hangs up before sending anything. *)
Definition hangup_script : Script := all_ok [Some []].

(** A first read of one byte that starts no UTF-8 sequence. *)
Definition invalid_byte_script : Script := all_ok [Some [255]].

(** A first line without a space. *)
Definition garbage_request : bytes :=
  Eval cbv in lit "GARBAGE" ++ CRLF ++ CRLF.
Definition garbage_script : Script := all_ok [Some garbage_request].

(** An origin-form request without a [Host:] header. *)
Definition no_host_request : bytes :=
  Eval cbv in lit "GET / HTTP/1.1" ++ CRLF ++ CRLF.
Definition no_host_script : Script := all_ok [Some no_host_request].

(** Scenario D: a CONNECT whose [connect] raises. *)
Definition unreachable_request : bytes :=
  Eval cbv in lit "CONNECT example.invalid:443 HTTP/1.1" ++ CRLF ++ CRLF.
Definition unreachable_script : Script :=
  {| client_reads := [Some unreachable_request];
     server_reads := []; selects := [];
     socket_ok := true; connect_ok := false;
     client_send_ok := true; server_send_ok := true; close_ok := true |}.

(** A request followed by two body bytes that are not UTF-8. *)
Definition binary_head : bytes :=
  Eval cbv in lit "POST / HTTP/1.1" ++ CRLF
              ++ lit "Host: example.com" ++ CRLF ++ CRLF.
Definition binary_request : bytes := binary_head ++ [255; 254].
Definition binary_body_script : Script := all_ok [Some binary_request].

(** A method token that merely starts with [CONNECT]. *)
Definition connected_request : bytes :=
  Eval cbv in lit "CONNECTED example.com:443 HTTP/1.1" ++ CRLF ++ CRLF.
Definition connected_script : Script := all_ok [Some connected_request].

Definition tunnel_request : bytes :=
  Eval cbv in lit "CONNECT example.com:443 HTTP/1.1" ++ CRLF ++ CRLF.
Definition forward_request : bytes :=
  Eval cbv in lit "GET http://example.com/ HTTP/1.1" ++ CRLF
              ++ lit "Host: example.com" ++ CRLF ++ CRLF.
Definition example_com : str := Eval cbv in lit "example.com".

(** ** Further notions used to state properties *)

(** [pruned a b]: [a] is [b] with some elements left out, the others
    kept in place and in order. *)
Inductive pruned : bytes -> bytes -> Prop :=
| pruned_nil : pruned [] []
| pruned_keep x a b : pruned a b -> pruned (x :: a) (x :: b)
| pruned_drop y a b : pruned a b -> pruned a (y :: b).

(** The calls between the request line and the relay: resolving the
    target makes no call; then [socket], [connect] and the first
    [send] on the new connection (the 200 response to the client in
    [handle_https], the request to the upstream in [handle_http]).
    The flag tells whether the relay is reached. *)
Inductive setup : list Event -> bool -> Prop :=
| setup_unresolved : setup [] false
| setup_no_socket : setup [EvSocket false] false
| setup_refused h p : setup [EvSocket true; EvConnect h p false] false
| setup_unencodable h p : setup [EvSocket true; EvConnect h p true] false
| setup_send_failed h p s d :
    setup [EvSocket true; EvConnect h p true; EvSend s d false] false
| setup_done h p s d :
    setup [EvSocket true; EvConnect h p true; EvSend s d true] true.

(** The runs of [handle_client]: the calls it makes, how it ends, and
    what it adds to [total_requests], [errors] and
    [active_connections]. *)
Inductive handler_run : list Event -> Outcome unit -> Z -> Z -> Z -> Prop :=
| ran_recv_raised c :
    handler_run [EvRecv Client None; EvClose Client c] (Ret tt) 0 1 0
| ran_empty raw c :
    utf8_decode_ignore raw = [] ->
    handler_run [EvRecv Client (Some raw); EvClose Client c] (Ret tt) 0 0 0
| ran_no_target raw c :
    utf8_decode_ignore raw <> [] ->
    target_token (first_line_of (utf8_decode_ignore raw)) = None ->
    handler_run [EvRecv Client (Some raw); EvClose Client c] (Ret tt) 1 1 0
| ran_failed raw pre ok c :
    utf8_decode_ignore raw <> [] ->
    setup pre false ->
    handler_run
      (EvRecv Client (Some raw)
       :: pre ++ [EvSend Client error_response ok; EvClose Client c])
      (Ret tt) 1 (if ok then 0 else 1) 0
| ran_relayed raw pre q t cs c :
    utf8_decode_ignore raw <> [] ->
    setup pre true -> pumped q -> stopped t ->
    handler_run
      (EvRecv Client (Some raw)
       :: pre ++ q ++ t ++ [EvClose Server cs; EvClose Client c])
      (Ret tt) 1 0 0
| ran_running raw pre q :
    utf8_decode_ignore raw <> [] ->
    setup pre true -> pumped q ->
    handler_run (EvRecv Client (Some raw) :: pre ++ q) OutOfFuel 1 0 1.

Definition is_select (e : Event) : bool :=
  match e with EvSelect _ => true | _ => false end.

Definition is_socket (e : Event) : bool :=
  match e with EvSocket _ => true | _ => false end.

Definition is_connect (e : Event) : bool :=
  match e with EvConnect _ _ _ => true | _ => false end.

(** A call on the upstream socket: a read, a write or its close. *)
Definition on_upstream (e : Event) : bool :=
  match e with
  | EvRecv Server _ | EvSend Server _ _ | EvClose Server _ => true
  | _ => false
  end.

Definition count_events (p : Event -> bool) (evs : list Event) : nat :=
  List.length (filter p evs).

(** The new part of a handler's trace and what the handler added to
    the counters. *)
Definition added_total (w w' : World) : Z :=
  total_requests (stats w') - total_requests (stats w).
Definition added_errors (w w' : World) : Z :=
  errors (stats w') - errors (stats w).

(** Counters moved by fixed amounts. *)
Definition shift (dt da de : Z) (s : Stats) : Stats :=
  {| total_requests := total_requests s + dt;
     active_connections := active_connections s + da;
     errors := errors s + de |}.

(** An environment in which nothing ever happens on either socket:
    every [select] comes back after its timeout with empty lists. *)
Definition idle_env : Env :=
  {| on_recv _ _ _ := None;
     on_send _ _ _ := true;
     on_socket _ := true;
     on_connect _ _ _ := true;
     on_select _ := Some ([], []);
     on_close _ _ := true |}.

(** ** The acceptor: [__init__], [start] and [stop]
    (lines 28-42, 44-72 and 182-189)

    [running] is [self.running]; [listening] tells whether
    [self.server_socket] is bound and not yet closed; [pool_open]
    whether [self.executor] still takes work; [submitted] lists the
    connections handed to [executor.submit], oldest first.  A
    connection is known by the environment of its handler. *)
Record Proxy := {
  running : bool;
  listening : bool;
  pool_open : bool;
  submitted : list Env
}.

(** [__init__] *)
Definition proxy_init : Proxy :=
  {| running := false; listening := false; pool_open := true;
     submitted := [] |}.

(** [stop]: lines 183-188, once it has returned.  An exception of
    [close] is swallowed; [shutdown(wait=True)] refuses new work at
    once and then waits for the handlers in flight, a wait the model
    keeps no account of. *)
Definition stop (p : Proxy) : Proxy :=
  {| running := false; listening := false; pool_open := false;
     submitted := submitted p |}.

(** What one call of [accept] in the loop of [start] meets: a
    connection, an exception of [accept], a [KeyboardInterrupt], or a
    [stop] run by another thread, which closes the listening socket
    under the blocked [accept] and makes it raise. *)
Inductive Arrival :=
| Connection (conn : Env)
| AcceptError
| Interrupt
| StoppedElsewhere.

(** [executor.submit(self.handle_client, ...)]: after [shutdown] it
    raises [RuntimeError], which line 63 catches. *)
Definition submit (conn : Env) (p : Proxy) : Proxy :=
  if pool_open p
  then {| running := running p; listening := listening p;
          pool_open := pool_open p; submitted := submitted p ++ [conn] |}
  else p.

(** Lines 58-65: [while self.running].  With no arrival left the
    loop is blocked in [accept]. *)
Fixpoint accept_loop (arrivals : list Arrival) (p : Proxy)
  : Outcome unit * Proxy :=
  if running p then
    match arrivals with
    | [] => (OutOfFuel, p)
    | Connection conn :: rest => accept_loop rest (submit conn p)
    | AcceptError :: rest => accept_loop rest p
    | Interrupt :: _ => (Ret tt, stop p)
    | StoppedElsewhere :: rest => accept_loop rest (stop p)
    end
  else (Ret tt, p).

(** [start]: [listen_ok] tells whether lines 46-49 (socket, bind,
    listen) go through, [thread_ok] whether the statistics thread of
    lines 55-56 starts; an exception of either is caught at line 70. *)
Definition start (listen_ok thread_ok : bool) (arrivals : list Arrival)
                 (p : Proxy) : Outcome unit * Proxy :=
  if listen_ok then
    let p1 := {| running := true; listening := true;
                 pool_open := pool_open p; submitted := submitted p |} in
    if thread_ok then accept_loop arrivals p1
    else (Ret tt, stop p1)
  else (Ret tt, stop p).

(** The connections that arrive before the acceptor is told to
    stop. *)
Fixpoint accepted_before_stop (arrivals : list Arrival) : list Env :=
  match arrivals with
  | [] => []
  | Connection conn :: rest => conn :: accepted_before_stop rest
  | AcceptError :: rest => accepted_before_stop rest
  | Interrupt :: _ => []
  | StoppedElsewhere :: _ => []
  end.

(** [framed m]: [m] neither reads the counters nor sets them; started
    from shifted counters it ends the same way, with the same trace,
    and leaves the counters shifted by as much. *)
Definition framed {A} (m : M A) : Prop :=
  forall dt da de w,
    m (with_stats (shift dt da de) w)
    = (fst (m w), with_stats (shift dt da de) (snd (m w))).

(** ** More concrete requests and environments *)


Definition all_ascii (raw : bytes) : bool :=
  forallb (fun b => (0 <=? b) && (b <? 128)) raw.

(** The first [recv] raises. *)
Definition reset_script : Script := all_ok [None].

(** A CONNECT whose target has no port. *)
Definition no_port_request : bytes :=
  Eval cbv in lit "CONNECT example.com HTTP/1.1" ++ CRLF ++ CRLF.
Definition no_port_script : Script := all_ok [Some no_port_request].

(** A CONNECT target that is an IPv6 literal. *)
Definition ipv6_target : str := Eval cbv in lit "[::1]:443".

(** The client has gone by the time the upstream is connected: every
    [send] on the client socket raises. *)
Definition client_gone_script : Script :=
  {| client_reads := [Some tunnel_request];
     server_reads := []; selects := [];
     socket_ok := true; connect_ok := true;
     client_send_ok := false; server_send_ok := true; close_ok := true |}.

Definition get_line : str := Eval cbv in lit "GET / HTTP/1.1".

(** A request whose body is the three bytes of U+20AC; the first read
    ends after the second of them, the third comes with the next
    read, then the client closes. *)
Definition split_character_script : Script :=
  {| client_reads := [Some (binary_head ++ [226; 130]); Some [172]; Some []];
     server_reads := [];
     selects := [Some ([Client], []); Some ([Client], [])];
     socket_ok := true; connect_ok := true;
     client_send_ok := true; server_send_ok := true; close_ok := true |}.


(** ** The scenarios of the specification *)

Example scenario_B_trace :
  run_handler tunnel_script 10 =
  (Ret tt,
   {| stats := {| total_requests := 1; active_connections := 0;
                  errors := 0 |};
      trace :=
        [EvRecv Client
           (Some (lit "CONNECT example.com:443 HTTP/1.1" ++ CRLF ++ CRLF));
         EvSocket true;
         EvConnect (Some (lit "example.com")) 443 true;
         EvSend Client established_response true;
         EvSelect (Some ([Client], []));
         EvRecv Client (Some (lit "hello"));
         EvSend Server (lit "hello") true;
         EvSelect (Some ([], []));
         EvSelect (Some ([Server; Client], []));
         EvRecv Server (Some (lit "world"));
         EvSend Client (lit "world") true;
         EvRecv Client (Some []);
         EvClose Server true;
         EvClose Client true] |}).
Proof. vm_compute. reflexivity. Qed.

Example scenario_A_trace :
  run_handler forward_script 10 =
  (Ret tt,
   {| stats := {| total_requests := 1; active_connections := 0;
                  errors := 0 |};
      trace :=
        [EvRecv Client
           (Some (lit "GET http://example.com/ HTTP/1.1" ++ CRLF
                  ++ lit "Host: example.com" ++ CRLF ++ CRLF));
         EvSocket true;
         EvConnect (Some (lit "example.com")) 80 true;
         EvSend Server
           (lit "GET http://example.com/ HTTP/1.1" ++ CRLF
            ++ lit "Host: example.com" ++ CRLF ++ CRLF) true;
         EvSelect (Some ([Server], []));
         EvRecv Server
           (Some (lit "HTTP/1.1 200 OK" ++ CRLF ++ CRLF ++ lit "Hello"));
         EvSend Client
           (lit "HTTP/1.1 200 OK" ++ CRLF ++ CRLF ++ lit "Hello") true;
         EvSelect (Some ([Server], []));
         EvRecv Server (Some []);
         EvClose Server true;
         EvClose Client true] |}).
Proof. vm_compute. reflexivity. Qed.

(** * Properties *)

(** ** The codec *)

Ltac euclid := Z.to_euclidean_division_equations; lia.

Ltac split_tests :=
  repeat match goal with
  | |- context [?a <? ?b] => destruct (Z.ltb_spec a b); try lia
  | |- context [?a <=? ?b] => destruct (Z.leb_spec a b); try lia
  | |- context [?a =? ?b] => destruct (Z.eqb_spec a b); try lia
  end.

Lemma decode_ascii ch s :
  ch < 0x80 -> utf8_decode_ignore (ch :: s) = ch :: utf8_decode_ignore s.
Proof. intros. cbn [utf8_decode_ignore]. split_tests. reflexivity. Qed.

Lemma decode_two ch ch2 s :
  0xC2 <= ch < 0xE0 -> 0x80 <= ch2 < 0xC0 ->
  utf8_decode_ignore (ch :: ch2 :: s) =
  (ch * 64 + ch2 - (0xC0 * 64 + 0x80)) :: utf8_decode_ignore s.
Proof.
  intros. cbn [utf8_decode_ignore]. unfold is_continuation.
  split_tests; cbn [andb orb negb]; solve [reflexivity | lia].
Qed.

Lemma decode_three ch ch2 ch3 s :
  0xE0 <= ch < 0xF0 -> 0x80 <= ch2 < 0xC0 -> 0x80 <= ch3 < 0xC0 ->
  (ch = 0xE0 -> 0xA0 <= ch2) -> (ch = 0xED -> ch2 < 0xA0) ->
  utf8_decode_ignore (ch :: ch2 :: ch3 :: s) =
  (ch * 4096 + ch2 * 64 + ch3 - (0xE0 * 4096 + 0x80 * 64 + 0x80))
  :: utf8_decode_ignore s.
Proof.
  intros. cbn [utf8_decode_ignore]. unfold is_continuation.
  split_tests; cbn [andb orb negb]; solve [reflexivity | lia].
Qed.

Lemma decode_four ch ch2 ch3 ch4 s :
  0xF0 <= ch < 0xF5 -> 0x80 <= ch2 < 0xC0 -> 0x80 <= ch3 < 0xC0 ->
  0x80 <= ch4 < 0xC0 ->
  (ch = 0xF0 -> 0x90 <= ch2) -> (ch = 0xF4 -> ch2 < 0x90) ->
  utf8_decode_ignore (ch :: ch2 :: ch3 :: ch4 :: s) =
  (ch * 262144 + ch2 * 4096 + ch3 * 64 + ch4
   - (0xF0 * 262144 + 0x80 * 4096 + 0x80 * 64 + 0x80))
  :: utf8_decode_ignore s.
Proof.
  intros. cbn [utf8_decode_ignore]. unfold is_continuation.
  split_tests; cbn [andb orb negb]; solve [reflexivity | lia].
Qed.

Ltac take_bytes :=
  let Hb := fresh "Hb" in
  intros Hb;
  apply (f_equal (fun o => match o with Some a => a | None => [] end)) in Hb;
  cbv beta iota in Hb; subst.

Lemma decode_encoded_char c b rest :
  utf8_encode_char c = Some b ->
  utf8_decode_ignore (b ++ rest) = c :: utf8_decode_ignore rest.
Proof.
  unfold utf8_encode_char.
  destruct (Z.ltb_spec c 0); [discriminate|].
  destruct (Z.ltb_spec c 0x80).
  { take_bytes. cbv [app]. apply decode_ascii. lia. }
  destruct (Z.ltb_spec c 0x800).
  { take_bytes. cbv [app]. rewrite decode_two by euclid.
    f_equal. euclid. }
  destruct (Z.leb_spec 0xD800 c); destruct (Z.leb_spec c 0xDFFF);
    cbn [andb]; try discriminate.
  all: destruct (Z.ltb_spec c 0x10000); try lia.
  all: try (take_bytes; cbv [app]; rewrite decode_three by euclid;
            f_equal; euclid).
  all: destruct (Z.ltb_spec c 0x110000); try discriminate.
  all: take_bytes; cbv [app]; rewrite decode_four by euclid;
       f_equal; euclid.
Qed.

(** Decoding undoes encoding: a request that is well-formed UTF-8 is
    read back as the text it encodes. *)
Lemma decode_encode text : forall raw,
  utf8_encode text = Some raw -> utf8_decode_ignore raw = text.
Proof.
  induction text as [|c text IH]; intros raw; cbn [utf8_encode].
  - intros [= <-]. reflexivity.
  - destruct (utf8_encode_char c) as [b|] eqn:Hc; [|discriminate].
    destruct (utf8_encode text) as [bs|]; [|discriminate].
    intros [= <-]. rewrite (decode_encoded_char _ _ _ Hc).
    f_equal. apply IH. reflexivity.
Qed.

(** ** First-line parsing *)

Lemma split_go_no_sep c b s : forall cur,
  ~ In c s -> split_go [c] 0 b cur s = [cur ++ s].
Proof.
  induction s as [|x s IH]; intros cur Hin; cbn [split_go].
  - rewrite app_nil_r. reflexivity.
  - cbn [startswith]. destruct (Z.eqb_spec c x) as [->|Hne].
    + exfalso. apply Hin. left. reflexivity.
    + cbn [andb]. rewrite IH.
      * rewrite <- app_assoc. reflexivity.
      * intros H. apply Hin. right. exact H.
Qed.

(** A first line without a space has no target token: the index [1]
    of line 86 is out of range. *)
Lemma target_token_no_space l : ~ In 32 l -> target_token l = None.
Proof.
  intros H. unfold target_token, str_split, SPACE.
  rewrite split_go_no_sep by exact H. reflexivity.
Qed.

Lemma split_go_length sep s : forall skip b cur,
  (1 <= List.length (split_go sep skip b cur s))%nat.
Proof.
  induction s as [|x s IH]; intros skip b cur; cbn [split_go].
  - cbn. lia.
  - destruct skip; [|apply IH].
    destruct (startswith sep (x :: s)); [|apply IH].
    destruct b as [[|b]|]; cbn [List.length]; try apply IH; lia.
Qed.

Lemma split_go_sep_two c s : forall cur,
  In c s -> (2 <= List.length (split_go [c] 0 None cur s))%nat.
Proof.
  induction s as [|x s IH]; intros cur Hin; [destruct Hin|].
  cbn [split_go startswith]. destruct (Z.eqb_spec c x) as [->|Hne].
  - cbn [andb List.length].
    pose proof (split_go_length [x] s (1 - 1) None []). lia.
  - cbn [andb]. apply IH. destruct Hin as [Hx|Hin]; congruence.
Qed.

Lemma target_token_space l : In 32 l -> target_token l <> None.
Proof.
  intros H Hnone. apply nth_error_None in Hnone.
  pose proof (split_go_sep_two 32 l [] H). unfold str_split, SPACE in Hnone.
  lia.
Qed.

Lemma startswith_before_sep p c : ~ In c p -> forall cur s,
  startswith p (cur ++ c :: s) = startswith p cur.
Proof.
  induction p as [|a p IH]; intros Hin cur s; [reflexivity|].
  destruct cur as [|b cur]; cbn [app startswith].
  - destruct (Z.eqb_spec a c) as [->|Hne]; [|reflexivity].
    exfalso. apply Hin. left. reflexivity.
  - rewrite IH; [reflexivity|]. intros H. apply Hin. right. exact H.
Qed.

Lemma startswith_first_field p c : ~ In c p -> forall s cur,
  startswith p (hd [] (split_go [c] 0 None cur s)) = startswith p (cur ++ s).
Proof.
  intros Hin. induction s as [|x s IH]; intros cur; cbn [split_go].
  - rewrite app_nil_r. reflexivity.
  - cbn [startswith]. destruct (Z.eqb_spec c x) as [->|Hne]; cbn [andb hd].
    + symmetry. apply startswith_before_sep. exact Hin.
    + rewrite IH, <- app_assoc. reflexivity.
Qed.

(** The test of line 88 looks at the first line; it holds exactly when
    the method token starts with [CONNECT]. *)
Lemma startswith_method l :
  startswith CONNECT l = startswith CONNECT (method_token l).
Proof.
  unfold method_token, str_split, SPACE.
  rewrite startswith_first_field; [reflexivity|].
  cbv. intuition discriminate.
Qed.

Lemma method_connect_route l : method_token l = CONNECT -> route_of l = ViaHttps.
Proof.
  intros H. unfold route_of. rewrite startswith_method, H. reflexivity.
Qed.

(** ** Traces *)

Lemma pumped_app q1 q2 : pumped q1 -> pumped q2 -> pumped (q1 ++ q2).
Proof.
  induction 1; intros; cbn [app]; auto; constructor; auto.
Qed.

Lemma sends_to_app s a b : sends_to s (a ++ b) = sends_to s a ++ sends_to s b.
Proof. unfold sends_to. apply flat_map_app. Qed.

Lemma recvs_from_app s a b :
  recvs_from s (a ++ b) = recvs_from s a ++ recvs_from s b.
Proof. unfold recvs_from. apply flat_map_app. Qed.

Lemma nonempty_chunks_app a b :
  nonempty_chunks (a ++ b) = nonempty_chunks a ++ nonempty_chunks b.
Proof. unfold nonempty_chunks. apply filter_app. Qed.

Lemma is_empty_false d : is_empty d = false <-> d <> [].
Proof. destruct d; cbn; split; congruence. Qed.

(** Every chunk a relay hands to a socket is a non-empty chunk it read
    from the other socket, in the order of the reads. *)
Lemma pumped_forwards q s :
  pumped q -> sends_to (other s) q = nonempty_chunks (recvs_from s q).
Proof.
  induction 1 as [|r q Hq IH|s' d q Hd Hq IH]; [reflexivity|exact IH|].
  change (EvRecv s' (Some d) :: EvSend (other s') d true :: q)
    with ([EvRecv s' (Some d); EvSend (other s') d true] ++ q).
  rewrite sends_to_app, recvs_from_app, nonempty_chunks_app, IH.
  f_equal. apply (proj2 (is_empty_false d)) in Hd.
  destruct s, s'; cbn; rewrite ?Hd; reflexivity.
Qed.

Lemma stopped_forwards t s :
  stopped t -> sends_to (other s) t = nonempty_chunks (recvs_from s t).
Proof.
  destruct 1 as [|r e He|s'|s'|s' d Hd];
    try reflexivity; try (destruct s, s'; reflexivity).
  apply (proj2 (is_empty_false d)) in Hd.
  destruct s, s'; cbn; rewrite ?Hd; reflexivity.
Qed.

Lemma pumped_no_close q s : pumped q -> existsb (is_close s) q = false.
Proof. induction 1; cbn; auto. Qed.

Lemma stopped_no_close t s : stopped t -> existsb (is_close s) t = false.
Proof. destruct 1; reflexivity. Qed.

Lemma pumped_goes_on q : pumped q -> existsb ends_relay q = false.
Proof.
  induction 1 as [|r q Hq IH|s d q Hd Hq IH]; cbn; auto.
  destruct d; [congruence|]. exact IH.
Qed.

Lemma stopped_last t pre e post :
  stopped t -> t = pre ++ e :: post -> ends_relay e = true -> post = [].
Proof.
  destruct 1 as [|r e' He|s|s|s d Hd]; intros Ht He'.
  1-4: destruct pre as [|x [|y pre]]; cbn in Ht; try discriminate;
       injection Ht as _ <-; reflexivity.
  destruct pre as [|x [|y [|z pre]]]; cbn in Ht; try discriminate.
  - injection Ht as <- _. destruct d; [congruence|discriminate].
  - injection Ht as _ _ <-. reflexivity.
Qed.

Lemma relay_step_last q t pre e post :
  pumped q -> stopped t -> q ++ t = pre ++ e :: post ->
  ends_relay e = true -> post = [].
Proof.
  intros Hq Ht Heq He.
  assert (Hnone := pumped_goes_on q Hq).
  revert pre Heq. induction Hq as [|r q Hq IH|s d q Hd Hq IH]; intros pre Heq.
  - eapply stopped_last; eauto.
  - destruct pre as [|x pre]; cbn in Heq.
    + injection Heq as <- _. discriminate.
    + injection Heq as _ Heq. eapply IH; eauto.
  - cbn in Hnone. destruct d as [|b d]; [congruence|]. cbn in Hnone.
    destruct pre as [|x [|y pre]]; cbn in Heq.
    + injection Heq as <- _. discriminate.
    + injection Heq as _ <- _. discriminate.
    + injection Heq as _ _ Heq. eapply IH; eauto.
Qed.

(** ** The relay engine *)

Lemma trace_log e w : trace (log_event e w) = trace w ++ [e].
Proof. reflexivity. Qed.

Lemma stats_log e w : stats (log_event e w) = stats w.
Proof. reflexivity. Qed.


Ltac trace_eq :=
  cbn [trace stats log_event with_stats];
  try rewrite !trace_log; try rewrite !app_nil_r;
  repeat (rewrite <- ?app_assoc; cbn [app]);
  reflexivity.

Section Relay.

Variable buffer_size : Z.
Variable env : Env.



(** The [for] loop never raises; it reports [Return] exactly when one
    of its steps ended the relay. *)
Lemma relay_ready_run ready : forall w,
  exists flow w' q t,
    relay_ready buffer_size env ready w = (Ret flow, w')
    /\ stats w' = stats w
    /\ trace w' = trace w ++ q ++ t
    /\ pumped q
    /\ (flow = Continue /\ t = [] \/ flow = Return /\ stopped t).
Proof.
  induction ready as [|sock rest IH]; intros w.
  - exists Continue, w, [], []. cbn. rewrite app_nil_r.
    repeat split; auto using pumped_nil.
  - cbn [relay_ready]. unfold bind at 1. unfold try_except, bind, recv.
    destruct (on_recv env (trace w) sock buffer_size) as [[|b d]|].
    + eexists Return, _, [], [_]. split; [reflexivity|].
      cbn. repeat split; auto using pumped_nil.
      right. split; auto. constructor.
    + cbn [is_empty]. unfold send at 1.
      destruct (on_send env _ (other sock) (b :: d)).
      * unfold ret at 1.
        destruct (IH (log_event (EvSend (other sock) (b :: d) true)
                        (log_event (EvRecv sock (Some (b :: d))) w)))
          as (flow & w' & q & t & Hrun & Hst & Htr & Hq & Hflow).
        exists flow, w', (EvRecv sock (Some (b :: d))
                          :: EvSend (other sock) (b :: d) true :: q), t.
        split.
        { destruct flow; exact Hrun. }
        split; [rewrite Hst; reflexivity|].
        split; [rewrite Htr; trace_eq|].
        split; [constructor; [discriminate|assumption]|assumption].
      * eexists Return, _, [], [_; _]. split; [reflexivity|].
        cbn. rewrite <- app_assoc. repeat split; auto using pumped_nil.
        right. split; auto. constructor. discriminate.
    + eexists Return, _, [], [_]. split; [reflexivity|].
      cbn. repeat split; auto using pumped_nil.
      right. split; auto. constructor.
Qed.


(** The [while] loop: the events of the iterations that went on, then
    the step that ended the relay; nothing of the latter while the loop
    is still running. *)
Lemma relay_loop_run fuel : forall w,
  exists o w' q t,
    relay_loop buffer_size env fuel w = (o, w')
    /\ stats w' = stats w
    /\ trace w' = trace w ++ q ++ t
    /\ pumped q
    /\ (o = OutOfFuel /\ t = []
        \/ (o = Ret tt \/ o = Raise OSError) /\ stopped t).
Proof.
  induction fuel as [|fuel IH]; intros w.
  - exists OutOfFuel, w, [], []. cbn. rewrite app_nil_r.
    repeat split; auto using pumped_nil.
  - cbn [relay_loop]. unfold bind at 1. unfold select.
    destruct (on_select env (trace w)) as [[ready errs]|].
    + cbn [snd fst]. destruct errs as [|e errs].
      * unfold bind at 1.
        destruct (relay_ready_run ready
                    (log_event (EvSelect (Some (ready, []))) w))
          as (flow & w1 & q1 & t1 & Hrun & Hst & Htr & Hq & Hflow).
        rewrite Hrun. destruct Hflow as [[-> ->]|[-> Ht]].
        -- destruct (IH w1) as (o & w' & q & t & Hrun' & Hst' & Htr' & Hq' & Ho).
           exists o, w', (EvSelect (Some (ready, [])) :: q1 ++ q), t.
           split; [exact Hrun'|].
           split; [rewrite Hst', Hst; reflexivity|].
           split.
           { rewrite Htr', Htr. trace_eq. }
           split; [constructor; apply pumped_app; assumption|assumption].
        -- exists (Ret tt), w1, (EvSelect (Some (ready, [])) :: q1), t1.
           split; [reflexivity|].
           split; [rewrite Hst; reflexivity|].
           split; [rewrite Htr; trace_eq|].
           split; [constructor; assumption|auto].
      * eexists (Ret tt), _, [], [_]. split; [reflexivity|].
        cbn. repeat split; auto using pumped_nil.
        right. split; auto. constructor. discriminate.
    + eexists (Raise OSError), _, [], [_]. split; [reflexivity|].
      cbn. repeat split; auto using pumped_nil.
      right. split; auto. constructor.
Qed.

(** [relay_data] never raises.  When it returns, the last call it
    made is the [close] of the upstream socket. *)
Lemma relay_data_run fuel w :
  exists o w' q t cl,
    relay_data buffer_size env fuel w = (o, w')
    /\ stats w' = stats w
    /\ trace w' = trace w ++ q ++ t ++ cl
    /\ pumped q
    /\ (o = OutOfFuel /\ t = [] /\ cl = []
        \/ o = Ret tt /\ stopped t /\ exists c, cl = [EvClose Server c]).
Proof.
  unfold relay_data, try_finally, try_except.
  destruct (relay_loop_run fuel w)
    as (o & w1 & q & t & Hrun & Hst & Htr & Hq & Ho).
  rewrite Hrun.
  destruct Ho as [[-> ->]|[[->| ->] Ht]].
  - exists OutOfFuel, w1, q, [], []. repeat split; auto.
  - unfold close. destruct (on_close env (trace w1) Server).
    + eexists (Ret tt), _, q, t, [_]. split; [reflexivity|].
      split; [exact Hst|].
      split; [rewrite trace_log, Htr; trace_eq|].
      split; [assumption|right; eauto].
    + eexists (Ret tt), _, q, t, [_]. split; [reflexivity|].
      split; [exact Hst|].
      split; [rewrite trace_log, Htr; trace_eq|].
      split; [assumption|right; eauto].
  - unfold ret at 1. unfold close. destruct (on_close env (trace w1) Server).
    + eexists (Ret tt), _, q, t, [_]. split; [reflexivity|].
      split; [exact Hst|].
      split; [rewrite trace_log, Htr; trace_eq|].
      split; [assumption|right; eauto].
    + eexists (Ret tt), _, q, t, [_]. split; [reflexivity|].
      split; [exact Hst|].
      split; [rewrite trace_log, Htr; trace_eq|].
      split; [assumption|right; eauto].
Qed.

End Relay.

(** What a finished or running relay leaves in the trace, followed by
    events [tail] that move no payload, forwards every chunk. *)
Lemma relay_trace_forwards q t cl tail s :
  pumped q ->
  t = [] \/ stopped t ->
  sends_to (other s) (cl ++ tail) = [] ->
  recvs_from s (cl ++ tail) = [] ->
  sends_to (other s) (q ++ t ++ cl ++ tail) =
  nonempty_chunks (recvs_from s (q ++ t ++ cl ++ tail)).
Proof.
  intros Hq Ht Hs Hr.
  rewrite (sends_to_app _ q), (sends_to_app _ t).
  rewrite (recvs_from_app _ q), (recvs_from_app _ t).
  rewrite !nonempty_chunks_app, Hs, Hr, (pumped_forwards q s Hq).
  f_equal. destruct Ht as [->|Ht]; [reflexivity|].
  rewrite (stopped_forwards t s Ht). reflexivity.
Qed.

Lemma split_at_last {A} (a pre post : list A) (x e : A) :
  a ++ [x] = pre ++ e :: post ->
  (post = [] /\ e = x /\ a = pre)
  \/ exists post', post = post' ++ [x] /\ a = pre ++ e :: post'.
Proof.
  intros H. destruct post as [|y post] using rev_ind.
  - left. apply app_inj_tail in H. intuition.
  - right. exists post. clear IHpost.
    change (pre ++ e :: post ++ [y]) with (pre ++ (e :: post) ++ [y]) in H.
    rewrite app_assoc in H. apply app_inj_tail in H.
    destruct H as [-> ->]. split; reflexivity.
Qed.

Lemma existsb_false_at {A} (f : A -> bool) pre e post :
  existsb f (pre ++ e :: post) = false -> f e = false.
Proof.
  rewrite existsb_app. cbn. intros H.
  apply orb_false_iff in H. destruct H as [_ H].
  apply orb_false_iff in H. tauto.
Qed.

Section RelayClaim.

Variable buffer_size : Z.
Variable env : Env.

(** C8.  In [relay_data] a zero-length read from either socket ends
    the whole relay at once: the only call after it is the [close] of
    the upstream socket.  The same holds for a call that raised and for
    a [select] that reported error sockets.  Whenever [relay_data]
    returns, its last call is that [close] (an exception of [close] is
    swallowed), and it never closes the client socket. *)
Theorem relay_ends_whole_tunnel_and_closes_upstream fuel w o w' :
  relay_data buffer_size env fuel w = (o, w') ->
  exists evs,
    trace w' = trace w ++ evs
    /\ existsb (is_close Client) evs = false
    /\ (o = OutOfFuel /\ existsb ends_relay evs = false
        \/ o = Ret tt /\ exists body c,
             evs = body ++ [EvClose Server c]
             /\ existsb (is_close Server) body = false)
    /\ (forall pre e post,
          evs = pre ++ e :: post -> ends_relay e = true ->
          o = Ret tt /\ exists c, post = [EvClose Server c]).
Proof.
  intros Hrun.
  destruct (relay_data_run buffer_size env fuel w)
    as (o1 & w1 & q & t & cl & Hrun1 & Hst & Htr & Hq & Hend).
  rewrite Hrun in Hrun1. injection Hrun1 as <- <-.
  exists (q ++ t ++ cl). split; [exact Htr|].
  destruct Hend as [(-> & -> & ->)|(-> & Ht & c & ->)].
  - rewrite !app_nil_r. split; [apply pumped_no_close; exact Hq|].
    split; [left; split; [reflexivity|apply pumped_goes_on; exact Hq]|].
    intros pre e post Heq He. exfalso.
    pose proof (pumped_goes_on q Hq) as Hnone. rewrite Heq in Hnone.
    apply existsb_false_at in Hnone. congruence.
  - split.
    { rewrite !existsb_app, pumped_no_close, stopped_no_close by assumption.
      reflexivity. }
    split.
    { right. split; [reflexivity|]. exists (q ++ t), c.
      split; [rewrite app_assoc; reflexivity|].
      rewrite existsb_app, pumped_no_close, stopped_no_close by assumption.
      reflexivity. }
    intros pre e post Heq He. split; [reflexivity|].
    rewrite app_assoc in Heq. apply split_at_last in Heq.
    destruct Heq as [(_ & -> & _)|(post' & -> & Heq)]; [discriminate|].
    rewrite (relay_step_last q t pre e post' Hq Ht Heq He).
    exists c. reflexivity.
Qed.

End RelayClaim.

(** ** The connection handler *)

Ltac run_handler_steps :=
  unfold handle_client, handler_rest, handler_enter, serve, dispatch,
    handle_https, handle_http, cleanup, lift_target, encode_request,
    add_active, incr_total, incr_errors, update_stats,
    recv, send, new_socket, connect, close;
  unfold try_finally, try_except, bind, ret, raise;
  cbn [trace stats log_event with_stats fst snd].

Ltac reduce_run := cbn [trace stats log_event with_stats fst snd is_empty].

Ltac enter_relay :=
  match goal with
  | |- context [relay_data ?b ?e ?f ?W] =>
    let o := fresh "o" in
    let w1 := fresh "w" in
    let q := fresh "q" in
    let t := fresh "t" in
    let cl := fresh "cl" in
    let Hrun := fresh "Hrun" in
    let Hst := fresh "Hst" in
    let Htr := fresh "Htr" in
    let Hq := fresh "Hq" in
    let Hend := fresh "Hend" in
    destruct (relay_data_run b e f W)
      as (o & w1 & q & t & cl & Hrun & Hst & Htr & Hq & Hend);
    rewrite Hrun
  end.

Ltac relay_facts :=
  match goal with
  | Hend : _ /\ ?t = [] /\ ?cl = [] \/ _ |- _ =>
    assert (t = [] \/ stopped t) by
      (destruct Hend as [(_ & -> & _)|(_ & ? & _)]; auto);
    assert (cl = [] \/ exists c, cl = [EvClose Server c]) by
      (destruct Hend as [(_ & _ & ->)|(_ & _ & ?)]; auto);
    destruct Hend as [(-> & _ & _)|(-> & _ & _)]
  end.

Section Claims.

Variable py : PyLib.
Variable buffer_size : Z.
Variable env : Env.

(** C7.  When the first [recv] on the client socket returns zero
    bytes, the handler closes the client socket and returns: it calls
    [send] on no socket and leaves the error counter and the
    total-request counter as they were. *)
Theorem empty_read_closes_silently fuel w :
  on_recv env (trace w) Client buffer_size = Some [] ->
  exists c w',
    handle_client py buffer_size env fuel w = (Ret tt, w')
    /\ trace w' = trace w ++ [EvRecv Client (Some []); EvClose Client c]
    /\ errors (stats w') = errors (stats w)
    /\ total_requests (stats w') = total_requests (stats w)
    /\ active_connections (stats w') = active_connections (stats w).
Proof.
  intros Hrecv. run_handler_steps. rewrite Hrecv.
  cbn [utf8_decode_ignore]. reduce_run.
  destruct (on_close env _ Client); reduce_run;
    eexists _, _; (split; [reflexivity|]); reduce_run;
    (split; [trace_eq|]); cbn; repeat split; lia.
Qed.


(** C6, as the handler has it.  When the text decoded from the first
    read is not empty and its first line contains no space, line 86
    raises [IndexError]: the handler counts one request and one error,
    calls [send] on no socket and closes the client socket. *)
Theorem missing_target_counts_one_error fuel w raw :
  on_recv env (trace w) Client buffer_size = Some raw ->
  utf8_decode_ignore raw <> [] ->
  ~ In 32 (first_line_of (utf8_decode_ignore raw)) ->
  exists c w',
    handle_client py buffer_size env fuel w = (Ret tt, w')
    /\ trace w' = trace w ++ [EvRecv Client (Some raw); EvClose Client c]
    /\ errors (stats w') = errors (stats w) + 1
    /\ total_requests (stats w') = total_requests (stats w) + 1
    /\ active_connections (stats w') = active_connections (stats w).
Proof.
  intros Hrecv Htext Hline. run_handler_steps. rewrite Hrecv.
  apply is_empty_false in Htext. rewrite Htext.
  rewrite (target_token_no_space _ Hline). reduce_run.
  destruct (on_close env _ Client); reduce_run;
    eexists _, _; (split; [reflexivity|]); reduce_run;
    (split; [trace_eq|]); cbn; repeat split; lia.
Qed.

(** C2, as the handler has it.  A request on the forward path whose
    target does not start with [http://] and that has no [Host:] line
    makes [handle_http] raise inside its own [try]: its handler hands
    the 500 response to the client socket, and [handle_client] counts
    an error only when that [send] raises. *)
Theorem missing_host_answers_500 fuel w raw url :
  on_recv env (trace w) Client buffer_size = Some raw ->
  target_token (first_line_of (utf8_decode_ignore raw)) = Some url ->
  route_of (first_line_of (utf8_decode_ignore raw)) = ViaHttp ->
  startswith HTTP_SCHEME url = false ->
  host_lines py (utf8_decode_ignore raw) = [] ->
  exists ok c w',
    handle_client py buffer_size env fuel w = (Ret tt, w')
    /\ trace w' = trace w ++ [EvRecv Client (Some raw);
                              EvSend Client error_response ok;
                              EvClose Client c]
    /\ errors (stats w') = errors (stats w) + (if ok then 0 else 1)
    /\ total_requests (stats w') = total_requests (stats w) + 1
    /\ active_connections (stats w') = active_connections (stats w).
Proof.
  intros Hrecv Hurl Hroute Hscheme Hhost. run_handler_steps. rewrite Hrecv.
  destruct (is_empty (utf8_decode_ignore raw)) eqn:Hempty.
  { destruct (utf8_decode_ignore raw); discriminate. }
  rewrite Hurl, Hroute. unfold http_target. rewrite Hscheme, Hhost.
  reduce_run.
  destruct (on_send env _ Client error_response); reduce_run;
    destruct (on_close env _ Client); reduce_run;
    eexists _, _, _; (split; [reflexivity|]); reduce_run;
    (split; [trace_eq|]); cbn; repeat split; lia.
Qed.

(** C1, as the handler has it.  When [connect] raises, the handler of
    [handle_https] or [handle_http] hands exactly the 500 response to
    the client socket, and the client socket is closed afterwards.
    The error counter stays as it was when that [send] returns; when
    it raises, [handle_client] catches the exception and counts one
    error. *)
Theorem connect_failure_answers_500 fuel w raw host port :
  on_recv env (trace w) Client buffer_size = Some raw ->
  upstream_target py (utf8_decode_ignore raw) = Some (host, port) ->
  on_socket env (trace w ++ [EvRecv Client (Some raw)]) = true ->
  on_connect env (trace w ++ [EvRecv Client (Some raw); EvSocket true])
    host port = false ->
  exists ok c w',
    handle_client py buffer_size env fuel w = (Ret tt, w')
    /\ trace w' = trace w ++ [EvRecv Client (Some raw); EvSocket true;
                              EvConnect host port false;
                              EvSend Client error_response ok;
                              EvClose Client c]
    /\ errors (stats w') = errors (stats w) + (if ok then 0 else 1)
    /\ total_requests (stats w') = total_requests (stats w) + 1
    /\ active_connections (stats w') = active_connections (stats w).
Proof.
  intros Hrecv Htarget Hsocket Hconnect. run_handler_steps. rewrite Hrecv.
  unfold upstream_target in Htarget.
  destruct (is_empty (utf8_decode_ignore raw)) eqn:Hempty.
  { destruct (utf8_decode_ignore raw); discriminate. }
  destruct (target_token (first_line_of (utf8_decode_ignore raw)))
    as [url|]; [|discriminate].
  destruct (route_of (first_line_of (utf8_decode_ignore raw))).
  - destruct (https_target py url) as [e|hp]; [discriminate|].
    injection Htarget as ->. reduce_run.
    rewrite Hsocket. reduce_run. rewrite <- app_assoc. cbn [app].
    rewrite Hconnect. reduce_run.
    destruct (on_send env _ Client error_response); reduce_run;
      destruct (on_close env _ Client); reduce_run;
      eexists _, _, _; (split; [reflexivity|]); reduce_run;
      (split; [trace_eq|]); cbn; repeat split; lia.
  - destruct (http_target py (utf8_decode_ignore raw) url) as [e|hp];
      [discriminate|].
    injection Htarget as ->. reduce_run.
    rewrite Hsocket. reduce_run. rewrite <- app_assoc. cbn [app].
    rewrite Hconnect. reduce_run.
    destruct (on_send env _ Client error_response); reduce_run;
      destruct (on_close env _ Client); reduce_run;
      eexists _, _, _; (split; [reflexivity|]); reduce_run;
      (split; [trace_eq|]); cbn; repeat split; lia.
Qed.


(** C9, as the handler has it.  Line 88 routes by a prefix test on the
    first line.  A request that has a target token (line 86 did not
    raise) is handled by [handle_https] exactly when its method token
    starts with [CONNECT], and by [handle_http] otherwise: from the
    first read on, [handle_client] is the chosen function inside the
    [except] and [finally] of lines 93-101.  In particular a request
    with a target token whose method token is [CONNECT] itself takes
    the tunnel path. *)
Theorem routing_by_connect_prefix fuel w raw url :
  on_recv env (trace w) Client buffer_size = Some raw ->
  target_token (first_line_of (utf8_decode_ignore raw)) = Some url ->
  let request := utf8_decode_ignore raw in
  let first_line := first_line_of request in
  (route_of first_line = ViaHttps
   <-> startswith CONNECT (method_token first_line) = true)
  /\ (method_token first_line = CONNECT -> route_of first_line = ViaHttps)
  /\ dispatch py buffer_size env fuel request first_line url =
     (if startswith CONNECT (method_token first_line)
      then handle_https py buffer_size env fuel url
      else handle_http py buffer_size env fuel request url)
  /\ handle_client py buffer_size env fuel w =
     try_finally
       (try_except
          (if startswith CONNECT (method_token first_line)
           then handle_https py buffer_size env fuel url
           else handle_http py buffer_size env fuel request url)
          (fun _ => incr_errors))
       (cleanup env)
       (with_stats bump_total
          (log_event (EvRecv Client (Some raw))
             (with_stats (bump_active 1) w))).
Proof.
  intros Hrecv Hurl request first_line. split; [|split; [|split]].
  - unfold route_of. rewrite startswith_method.
    destruct (startswith CONNECT (method_token first_line));
      split; congruence.
  - apply method_connect_route.
  - unfold dispatch, route_of. rewrite startswith_method.
    destruct (startswith CONNECT (method_token first_line)); reflexivity.
  - unfold handle_client, try_finally, try_except.
    unfold bind at 1. unfold add_active at 1. unfold update_stats at 1.
    unfold serve. unfold bind at 1. unfold recv at 1.
    cbn [trace with_stats]. rewrite Hrecv.
    destruct (is_empty (utf8_decode_ignore raw)) eqn:Hempty.
    { destruct (utf8_decode_ignore raw); discriminate. }
    unfold bind at 1. unfold incr_total at 1. unfold update_stats at 1.
    rewrite Hurl. unfold dispatch, route_of.
    fold request. fold first_line. rewrite startswith_method.
    destruct (startswith CONNECT (method_token first_line)); reflexivity.
Qed.



(** C10.  For a CONNECT request the first read reaches the upstream
    in no form: every buffer handed to the upstream socket is a
    non-empty chunk that a later [recv] on the client socket returned,
    in the order of those reads. *)
Theorem tunnel_drops_rest_of_first_read fuel w raw url :
  on_recv env (trace w) Client buffer_size = Some raw ->
  method_token (first_line_of (utf8_decode_ignore raw)) = CONNECT ->
  target_token (first_line_of (utf8_decode_ignore raw)) = Some url ->
  exists rest,
    trace (snd (handle_client py buffer_size env fuel w)) =
      trace w ++ EvRecv Client (Some raw) :: rest
    /\ sends_to Server rest = nonempty_chunks (recvs_from Client rest).
Proof.
  intros Hrecv Hmethod Hurl.
  apply method_connect_route in Hmethod.
  run_handler_steps. rewrite Hrecv.
  destruct (is_empty (utf8_decode_ignore raw)) eqn:Hempty.
  { destruct (utf8_decode_ignore raw); discriminate. }
  rewrite Hurl, Hmethod. reduce_run.
  destruct (https_target py url) as [e|[host port]]; reduce_run.
  { destruct (on_send env _ Client error_response); reduce_run;
      destruct (on_close env _ Client); reduce_run;
      (eexists [_; _]; split; [trace_eq|reflexivity]). }
  destruct (on_socket env _); reduce_run.
  2: { destruct (on_send env _ Client error_response); reduce_run;
         destruct (on_close env _ Client); reduce_run;
         (eexists [_; _; _]; split; [trace_eq|reflexivity]). }
  destruct (on_connect env _ host port); reduce_run.
  2: { destruct (on_send env _ Client error_response); reduce_run;
         destruct (on_close env _ Client); reduce_run;
         (eexists [_; _; _; _]; split; [trace_eq|reflexivity]). }
  destruct (on_send env _ Client established_response); reduce_run.
  2: { destruct (on_send env _ Client error_response); reduce_run;
         destruct (on_close env _ Client); reduce_run;
         (eexists [_; _; _; _; _]; split; [trace_eq|reflexivity]). }
  enter_relay. relay_facts.
  - exists ([EvSocket true; EvConnect host port true;
             EvSend Client established_response true]
            ++ q ++ t ++ cl ++ []).
    cbn [snd]. rewrite Htr. split; [reduce_run; trace_eq|].
    rewrite sends_to_app, recvs_from_app, nonempty_chunks_app.
    cbn [app]. apply (relay_trace_forwards q t cl [] Client); auto;
      match goal with H : cl = [] \/ _ |- _ =>
        destruct H as [->|[c ->]]; reflexivity end.
  - destruct (on_close env (trace w0) Client); reduce_run;
      (eexists ([EvSocket true; EvConnect host port true;
                 EvSend Client established_response true]
                ++ q ++ t ++ cl ++ [_]);
       rewrite Htr; split; [reduce_run; trace_eq|];
       rewrite sends_to_app, recvs_from_app, nonempty_chunks_app;
       cbn [app]; apply (relay_trace_forwards q t cl [_] Client); auto;
       match goal with H : cl = [] \/ _ |- _ =>
         destruct H as [->|[c ->]]; reflexivity end).
Qed.

(** The forward path on a first read that is well-formed UTF-8 as
    it stands (it is the encoding of a text): when [connect] returns,
    the buffer handed to the upstream socket is the first read, byte
    for byte; afterwards every buffer handed to either socket is a
    non-empty chunk read from the other one, whole and in order.  When
    handing over the request raises, the client socket is handed the
    500 response instead. *)
Lemma forward_sends_request_verbatim fuel w raw text url host port :
  on_recv env (trace w) Client buffer_size = Some raw ->
  utf8_encode text = Some raw ->
  target_token (first_line_of text) = Some url ->
  route_of (first_line_of text) = ViaHttp ->
  http_target py text url = inr (host, port) ->
  on_socket env (trace w ++ [EvRecv Client (Some raw)]) = true ->
  on_connect env (trace w ++ [EvRecv Client (Some raw); EvSocket true])
    host port = true ->
  exists ok rest,
    trace (snd (handle_client py buffer_size env fuel w)) =
      trace w ++ [EvRecv Client (Some raw); EvSocket true;
                  EvConnect host port true;
                  EvSend Server raw ok] ++ rest
    /\ sends_to Client rest =
       (if ok then nonempty_chunks (recvs_from Server rest)
        else [error_response])
    /\ sends_to Server rest = nonempty_chunks (recvs_from Client rest).
Proof.
  intros Hrecv Henc Hurl Hroute Htarget Hsocket Hconnect.
  run_handler_steps. rewrite Hrecv, (decode_encode _ _ Henc).
  destruct (is_empty text) eqn:Hempty.
  { destruct text; discriminate. }
  rewrite Hurl, Hroute, Htarget. reduce_run.
  rewrite Hsocket. reduce_run. rewrite <- app_assoc. cbn [app].
  rewrite Hconnect, Henc. reduce_run. rewrite <- !app_assoc. cbn [app].
  destruct (on_send env _ Server raw); reduce_run.
  - enter_relay. relay_facts.
    + exists true, (q ++ t ++ cl ++ []). cbn [snd]. rewrite Htr.
      split; [reduce_run; trace_eq|].
      split; [apply (relay_trace_forwards q t cl [] Server)
             |apply (relay_trace_forwards q t cl [] Client)]; auto;
        match goal with H : cl = [] \/ _ |- _ =>
          destruct H as [->|[c ->]]; reflexivity end.
    + destruct (on_close env (trace w0) Client); reduce_run;
        (eexists true, (q ++ t ++ cl ++ [_]); rewrite Htr;
         split; [reduce_run; trace_eq|];
         split; [apply (relay_trace_forwards q t cl [_] Server)
                |apply (relay_trace_forwards q t cl [_] Client)]; auto;
         match goal with H : cl = [] \/ _ |- _ =>
           destruct H as [->|[c ->]]; reflexivity end).
  - destruct (on_send env _ Client error_response); reduce_run;
      destruct (on_close env _ Client); reduce_run;
      (eexists false, [_; _]; split; [trace_eq|]; split; reflexivity).
Qed.


(** *** Every exit path *)





End Claims.

(** ** Running out of fuel

    The one loop of the handler is the relay.  A run that is still
    going when the fuel is spent has made a [select] call for every
    unit of fuel: a relay that ends within [n] iterations is run to
    its end by any fuel above [n]. *)

Lemma count_selects_app a b :
  count_selects (a ++ b) = (count_selects a + count_selects b)%nat.
Proof. unfold count_selects. rewrite filter_app, length_app. reflexivity. Qed.

Section Fuel.

Variable py : PyLib.
Variable buffer_size : Z.
Variable env : Env.

Lemma count_selects_log e w :
  count_selects (trace (log_event e w)) =
  (count_selects (trace w)
   + match e with EvSelect _ => 1 | _ => 0 end)%nat.
Proof.
  rewrite trace_log, count_selects_app. destruct e; reflexivity.
Qed.

Lemma relay_ready_selects ready : forall w,
  count_selects (trace (snd (relay_ready buffer_size env ready w)))
  = count_selects (trace w).
Proof.
  induction ready as [|sock rest IH]; intros w; [reflexivity|].
  cbn [relay_ready]. unfold bind at 1. unfold try_except, bind, recv.
  destruct (on_recv env (trace w) sock buffer_size) as [[|b d]|];
    cbn [is_empty].
  - unfold ret. cbn [snd]. rewrite count_selects_log. lia.
  - unfold send at 1. destruct (on_send env _ (other sock) (b :: d)).
    + unfold ret at 1. rewrite IH, !count_selects_log. lia.
    + unfold ret. cbn [snd]. rewrite !count_selects_log. lia.
  - unfold ret. cbn [snd]. rewrite count_selects_log. lia.
Qed.

Lemma relay_loop_fuel fuel : forall w w',
  relay_loop buffer_size env fuel w = (OutOfFuel, w') ->
  count_selects (trace w') = (count_selects (trace w) + fuel)%nat.
Proof.
  induction fuel as [|fuel IH]; intros w w'.
  - cbn. intros [= <-]. lia.
  - cbn [relay_loop]. unfold bind at 1. unfold select.
    destruct (on_select env (trace w)) as [[ready errs]|]; [|discriminate].
    cbn [snd fst]. destruct errs as [|e errs]; [|discriminate].
    unfold bind at 1.
    pose proof (relay_ready_selects ready
                  (log_event (EvSelect (Some (ready, []))) w)) as Hsel.
    destruct (relay_ready_run buffer_size env ready
                (log_event (EvSelect (Some (ready, []))) w))
      as (flow & w1 & q1 & t1 & Hrun & _).
    rewrite Hrun in *. cbn [snd] in Hsel.
    destruct flow; [|discriminate].
    intros H. apply IH in H. rewrite H, Hsel, count_selects_log. lia.
Qed.

Lemma relay_data_fuel fuel w w' :
  relay_data buffer_size env fuel w = (OutOfFuel, w') ->
  count_selects (trace w') = (count_selects (trace w) + fuel)%nat.
Proof.
  unfold relay_data, try_finally, try_except.
  destruct (relay_loop buffer_size env fuel w) as [[[]|e|] w1] eqn:Hrun.
  - unfold close. destruct (on_close env _ Server); discriminate.
  - unfold ret at 1. unfold close.
    destruct (on_close env _ Server); discriminate.
  - intros [= <-]. apply relay_loop_fuel. exact Hrun.
Qed.

Lemma serve_out_of_fuel fuel w w' :
  serve py buffer_size env fuel w = (OutOfFuel, w') ->
  (fuel <= count_selects (trace w'))%nat.
Proof.
  run_handler_steps.
  destruct (on_recv env (trace w) Client buffer_size) as [raw|];
    [|discriminate].
  destruct (is_empty (utf8_decode_ignore raw)); [discriminate|].
  reduce_run.
  destruct (target_token _) as [url|]; [|discriminate].
  destruct (route_of _).
  - destruct (https_target py url) as [e|[host port]]; reduce_run.
    { destruct (on_send env _ Client error_response); discriminate. }
    destruct (on_socket env _); reduce_run.
    2: { destruct (on_send env _ Client error_response); discriminate. }
    destruct (on_connect env _ host port); reduce_run.
    2: { destruct (on_send env _ Client error_response); discriminate. }
    destruct (on_send env _ Client established_response); reduce_run.
    2: { destruct (on_send env _ Client error_response); discriminate. }
    match goal with
    | |- context [relay_data ?b ?e ?f ?W] =>
      destruct (relay_data b e f W) as [[[]|e1|] w1] eqn:Hrelay
    end; try discriminate.
    + destruct (on_send env _ Client error_response); discriminate.
    + intros [= <-]. apply relay_data_fuel in Hrelay. lia.
  - destruct (http_target py (utf8_decode_ignore raw) url)
      as [e|[host port]]; reduce_run.
    { destruct (on_send env _ Client error_response); discriminate. }
    destruct (on_socket env _); reduce_run.
    2: { destruct (on_send env _ Client error_response); discriminate. }
    destruct (on_connect env _ host port); reduce_run.
    2: { destruct (on_send env _ Client error_response); discriminate. }
    destruct (utf8_encode (utf8_decode_ignore raw)) as [data|]; reduce_run.
    2: { destruct (on_send env _ Client error_response); discriminate. }
    destruct (on_send env _ Server data); reduce_run.
    2: { destruct (on_send env _ Client error_response); discriminate. }
    match goal with
    | |- context [relay_data ?b ?e ?f ?W] =>
      destruct (relay_data b e f W) as [[[]|e1|] w1] eqn:Hrelay
    end; try discriminate.
    + destruct (on_send env _ Client error_response); discriminate.
    + intros [= <-]. apply relay_data_fuel in Hrelay. lia.
Qed.

(** The handler is still running when the fuel is spent only inside
    the relay, after as many [select] calls as there was fuel. *)
Lemma handler_out_of_fuel fuel w w' :
  handle_client py buffer_size env fuel w = (OutOfFuel, w') ->
  (fuel <= count_selects (trace w'))%nat.
Proof.
  unfold handle_client, try_finally, try_except, bind at 1.
  unfold add_active, update_stats.
  destruct (serve py buffer_size env fuel _) as [[[]|e|] w1] eqn:Hserve.
  - unfold cleanup, bind, try_except, close, add_active, update_stats, ret.
    destruct (on_close env _ Client); discriminate.
  - unfold incr_errors, update_stats, cleanup, bind, try_except, close,
      add_active, update_stats, ret.
    destruct (on_close env _ Client); discriminate.
  - intros [= <-]. apply serve_out_of_fuel in Hserve. exact Hserve.
Qed.

End Fuel.

(** ** The active-connection counter over many handlers *)






(** ** The handler on concrete requests *)

Lemma empty_read_closes_silently_witness :
  on_recv (scripted hangup_script) (trace world0) Client 16384 = Some []
  /\ exists c w',
       handle_client ascii_py 16384 (scripted hangup_script) 0 world0
       = (Ret tt, w')
       /\ trace w' = trace world0 ++ [EvRecv Client (Some []);
                                      EvClose Client c]
       /\ errors (stats w') = errors (stats world0)
       /\ total_requests (stats w') = total_requests (stats world0)
       /\ active_connections (stats w') = active_connections (stats world0).
Proof.
  split; [reflexivity|].
  apply (empty_read_closes_silently ascii_py 16384 (scripted hangup_script)
           0%nat world0).
  reflexivity.
Defined.

(** C6 as stated fails: the first read [b'\xff'] is not empty and has
    no space on its first line, yet it decodes to the empty text, so
    line 81 returns before any counter but the active one moves. *)
Lemma undecodable_read_counts_no_error :
  [255] <> []
  /\ ~ In 32 [255]
  /\ run_handler invalid_byte_script 0 =
     (Ret tt, {| stats := stats0;
                 trace := [EvRecv Client (Some [255]);
                           EvClose Client true] |})
  /\ errors (stats (snd (run_handler invalid_byte_script 0)))
     <> errors stats0 + 1.
Proof.
  split; [discriminate|].
  split; [cbn; intuition discriminate|].
  split; [vm_compute; reflexivity|].
  vm_compute. discriminate.
Qed.

Lemma missing_target_counts_one_error_witness :
  on_recv (scripted garbage_script) (trace world0) Client 16384
  = Some garbage_request
  /\ utf8_decode_ignore garbage_request <> []
  /\ ~ In 32 (first_line_of (utf8_decode_ignore garbage_request))
  /\ exists c w',
       handle_client ascii_py 16384 (scripted garbage_script) 0 world0
       = (Ret tt, w')
       /\ trace w' = trace world0 ++ [EvRecv Client (Some garbage_request);
                                      EvClose Client c]
       /\ errors (stats w') = errors (stats world0) + 1
       /\ total_requests (stats w') = total_requests (stats world0) + 1
       /\ active_connections (stats w') = active_connections (stats world0).
Proof.
  assert (H1 : utf8_decode_ignore garbage_request <> [])
    by (vm_compute; discriminate).
  assert (H2 : ~ In 32 (first_line_of (utf8_decode_ignore garbage_request)))
    by (vm_compute; intuition discriminate).
  split; [reflexivity|]. split; [exact H1|]. split; [exact H2|].
  apply (missing_target_counts_one_error ascii_py 16384
           (scripted garbage_script) 0%nat world0 garbage_request);
    [reflexivity|exact H1|exact H2].
Defined.

(** C2 as stated fails: for [GET / HTTP/1.1] without a [Host:] line
    the client socket is handed the 500 response and no error is
    counted. *)
Lemma missing_host_gets_500_uncounted :
  target_token (first_line_of (utf8_decode_ignore no_host_request))
  = Some [47]
  /\ startswith HTTP_SCHEME [47] = false
  /\ host_lines ascii_py (utf8_decode_ignore no_host_request) = []
  /\ run_handler no_host_script 0 =
     (Ret tt, {| stats := {| total_requests := 1; active_connections := 0;
                             errors := 0 |};
                 trace := [EvRecv Client (Some no_host_request);
                           EvSend Client error_response true;
                           EvClose Client true] |})
  /\ sends_to Client (trace (snd (run_handler no_host_script 0))) <> []
  /\ errors (stats (snd (run_handler no_host_script 0)))
     <> errors stats0 + 1.
Proof.
  repeat split; try (vm_compute; reflexivity); vm_compute; discriminate.
Qed.

Lemma missing_host_answers_500_witness :
  on_recv (scripted no_host_script) (trace world0) Client 16384
  = Some no_host_request
  /\ target_token (first_line_of (utf8_decode_ignore no_host_request))
     = Some [47]
  /\ route_of (first_line_of (utf8_decode_ignore no_host_request)) = ViaHttp
  /\ startswith HTTP_SCHEME [47] = false
  /\ host_lines ascii_py (utf8_decode_ignore no_host_request) = []
  /\ exists ok c w',
       handle_client ascii_py 16384 (scripted no_host_script) 0 world0
       = (Ret tt, w')
       /\ trace w' = trace world0 ++ [EvRecv Client (Some no_host_request);
                                      EvSend Client error_response ok;
                                      EvClose Client c]
       /\ errors (stats w') = errors (stats world0) + (if ok then 0 else 1)
       /\ total_requests (stats w') = total_requests (stats world0) + 1
       /\ active_connections (stats w') = active_connections (stats world0).
Proof.
  split; [reflexivity|]. split; [vm_compute; reflexivity|].
  split; [vm_compute; reflexivity|]. split; [reflexivity|].
  split; [vm_compute; reflexivity|].
  apply (missing_host_answers_500 ascii_py 16384 (scripted no_host_script)
           0%nat world0 no_host_request [47]);
    vm_compute; reflexivity.
Defined.

(** C1 as stated fails: when [connect] raises and the 500 response is
    handed over without an exception, the error counter does not
    move. *)
Lemma connect_failure_uncounted :
  run_handler unreachable_script 0 =
  (Ret tt, {| stats := {| total_requests := 1; active_connections := 0;
                          errors := 0 |};
              trace := [EvRecv Client (Some unreachable_request);
                        EvSocket true;
                        EvConnect (Some (lit "example.invalid")) 443 false;
                        EvSend Client error_response true;
                        EvClose Client true] |})
  /\ errors (stats (snd (run_handler unreachable_script 0)))
     <> errors stats0 + 1.
Proof.
  split; [vm_compute; reflexivity|vm_compute; discriminate].
Qed.

Lemma connect_failure_answers_500_witness :
  on_recv (scripted unreachable_script) (trace world0) Client 16384
  = Some unreachable_request
  /\ upstream_target ascii_py (utf8_decode_ignore unreachable_request)
     = Some (Some (lit "example.invalid"), 443)
  /\ exists ok c w',
       handle_client ascii_py 16384 (scripted unreachable_script) 0 world0
       = (Ret tt, w')
       /\ trace w' = trace world0 ++
            [EvRecv Client (Some unreachable_request); EvSocket true;
             EvConnect (Some (lit "example.invalid")) 443 false;
             EvSend Client error_response ok;
             EvClose Client c]
       /\ errors (stats w') = errors (stats world0) + (if ok then 0 else 1)
       /\ total_requests (stats w') = total_requests (stats world0) + 1
       /\ active_connections (stats w') = active_connections (stats world0).
Proof.
  split; [reflexivity|]. split; [vm_compute; reflexivity|].
  apply (connect_failure_answers_500 ascii_py 16384
           (scripted unreachable_script) 0%nat world0 unreachable_request
           (Some (lit "example.invalid")) 443);
    vm_compute; reflexivity.
Defined.

(** Two bytes of a first read that are not UTF-8 are dropped by
    [decode(..., errors='ignore')], and the upstream is handed the
    request without them. *)
Lemma undecodable_bytes_not_forwarded :
  route_of (first_line_of (utf8_decode_ignore binary_request)) = ViaHttp
  /\ recvs_from Client (trace (snd (run_handler binary_body_script 1)))
  = [binary_head ++ [255; 254]]
  /\ sends_to Server (trace (snd (run_handler binary_body_script 1)))
     = [binary_head]
  /\ sends_to Server (trace (snd (run_handler binary_body_script 1)))
     <> recvs_from Client (trace (snd (run_handler binary_body_script 1))).
Proof.
  split; [vm_compute; reflexivity|].
  split; [vm_compute; reflexivity|].
  split; [vm_compute; reflexivity|].
  vm_compute. discriminate.
Qed.

Lemma forward_sends_request_verbatim_witness :
  on_recv (scripted forward_script) (trace world0) Client 16384
  = Some forward_request
  /\ utf8_encode forward_request = Some forward_request
  /\ http_target ascii_py forward_request (lit "http://example.com/")
     = inr (Some example_com, 80)
  /\ exists ok rest,
       trace (snd (handle_client ascii_py 16384 (scripted forward_script)
                     10 world0)) =
         trace world0 ++ [EvRecv Client (Some forward_request);
                          EvSocket true;
                          EvConnect (Some example_com) 80 true;
                          EvSend Server forward_request ok] ++ rest
       /\ sends_to Client rest =
          (if ok then nonempty_chunks (recvs_from Server rest)
           else [error_response])
       /\ sends_to Server rest = nonempty_chunks (recvs_from Client rest).
Proof.
  split; [reflexivity|]. split; [vm_compute; reflexivity|].
  split; [vm_compute; reflexivity|].
  apply (forward_sends_request_verbatim ascii_py 16384
           (scripted forward_script) 10%nat world0 forward_request
           forward_request (lit "http://example.com/")
           (Some example_com) 80);
    vm_compute; reflexivity.
Defined.


Lemma tunnel_drops_rest_of_first_read_witness :
  on_recv (scripted tunnel_script) (trace world0) Client 16384
  = Some tunnel_request
  /\ method_token (first_line_of (utf8_decode_ignore tunnel_request))
     = CONNECT
  /\ exists rest,
       trace (snd (handle_client ascii_py 16384 (scripted tunnel_script)
                     10 world0)) =
         trace world0 ++ EvRecv Client (Some tunnel_request) :: rest
       /\ sends_to Server rest = nonempty_chunks (recvs_from Client rest).
Proof.
  split; [reflexivity|]. split; [vm_compute; reflexivity|].
  apply (tunnel_drops_rest_of_first_read ascii_py 16384
           (scripted tunnel_script) 10%nat world0 tunnel_request
           (lit "example.com:443"));
    vm_compute; reflexivity.
Defined.

(** C9 as stated fails: the method token [CONNECTED] is not [CONNECT],
    yet the request goes down the tunnel path and is answered with the
    200 response. *)
Lemma connect_prefix_takes_tunnel_path :
  method_token (first_line_of (utf8_decode_ignore connected_request))
  <> CONNECT
  /\ route_of (first_line_of (utf8_decode_ignore connected_request))
     = ViaHttps
  /\ trace (snd (run_handler connected_script 1)) =
     [EvRecv Client (Some connected_request);
      EvSocket true;
      EvConnect (Some example_com) 443 true;
      EvSend Client established_response true;
      EvSelect None;
      EvClose Server true;
      EvClose Client true].
Proof.
  split; [vm_compute; discriminate|].
  split; vm_compute; reflexivity.
Qed.

Lemma relay_ends_whole_tunnel_and_closes_upstream_witness :
  relay_data 16384 (scripted tunnel_script) 10 world0 =
  (Ret tt, snd (relay_data 16384 (scripted tunnel_script) 10 world0))
  /\ exists evs,
       trace (snd (relay_data 16384 (scripted tunnel_script) 10 world0))
       = trace world0 ++ evs
       /\ existsb (is_close Client) evs = false
       /\ (Ret tt = OutOfFuel /\ existsb ends_relay evs = false
           \/ Ret tt = Ret tt /\ exists body c,
                evs = body ++ [EvClose Server c]
                /\ existsb (is_close Server) body = false)
       /\ (forall pre e post,
             evs = pre ++ e :: post -> ends_relay e = true ->
             Ret tt = Ret tt /\ exists c, post = [EvClose Server c]).
Proof.
  assert (H : relay_data 16384 (scripted tunnel_script) 10 world0 =
              (Ret tt, snd (relay_data 16384 (scripted tunnel_script)
                              10 world0)))
    by (vm_compute; reflexivity).
  split; [exact H|].
  exact (relay_ends_whole_tunnel_and_closes_upstream 16384
           (scripted tunnel_script) 10%nat world0 (Ret tt) _ H).
Defined.


(** C3.  The code does not do what the claim says.  A client sends a
    request that is well-formed UTF-8, a header and the three bytes of
    U+20AC; the first read ends after the second of them.  Line 79
    drops the two bytes of the unfinished character, line 121 hands
    the upstream the header alone, and the relay then forwards the
    third byte as it is (line 162): the upstream has received the
    header and one stray byte, not the bytes the client sent. *)
Theorem split_character_reaches_upstream_broken :
  let tr := trace (snd (run_handler split_character_script 5)) in
  utf8_encode (utf8_decode_ignore binary_head ++ [0x20AC])
  = Some (binary_head ++ [226; 130; 172])
  /\ route_of (first_line_of
                 (utf8_decode_ignore (binary_head ++ [226; 130]))) = ViaHttp
  /\ recvs_from Client tr = [binary_head ++ [226; 130]; [172]; []]
  /\ sends_to Server tr = [binary_head; [172]]
  /\ List.concat (recvs_from Client tr) = binary_head ++ [226; 130; 172]
  /\ List.concat (sends_to Server tr) = binary_head ++ [172]
  /\ List.concat (sends_to Server tr) <> List.concat (recvs_from Client tr).
Proof.
  cbv zeta.
  split; [vm_compute; reflexivity|].
  split; [vm_compute; reflexivity|].
  split; [vm_compute; reflexivity|].
  split; [vm_compute; reflexivity|].
  split; [vm_compute; reflexivity|].
  split; [vm_compute; reflexivity|].
  vm_compute. discriminate.
Qed.


Lemma routing_by_connect_prefix_witness :
  on_recv (scripted tunnel_script) (trace world0) Client 16384
  = Some tunnel_request
  /\ target_token (first_line_of (utf8_decode_ignore tunnel_request))
     = Some (lit "example.com:443")
  /\ route_of (first_line_of (utf8_decode_ignore tunnel_request)) = ViaHttps
  /\ handle_client ascii_py 16384 (scripted tunnel_script) 10 world0 =
     try_finally
       (try_except
          (handle_https ascii_py 16384 (scripted tunnel_script) 10
             (lit "example.com:443"))
          (fun _ => incr_errors))
       (cleanup (scripted tunnel_script))
       (with_stats bump_total
          (log_event (EvRecv Client (Some tunnel_request))
             (with_stats (bump_active 1) world0))).
Proof.
  assert (H1 : on_recv (scripted tunnel_script) (trace world0) Client 16384
               = Some tunnel_request) by reflexivity.
  assert (H2 : target_token
                 (first_line_of (utf8_decode_ignore tunnel_request))
               = Some (lit "example.com:443")) by (vm_compute; reflexivity).
  pose proof (routing_by_connect_prefix ascii_py 16384
                (scripted tunnel_script) 10%nat world0 tunnel_request
                (lit "example.com:443") H1 H2) as (Hiff & _ & _ & Hrun).
  split; [exact H1|]. split; [exact H2|].
  split; [apply Hiff; vm_compute; reflexivity|].
  rewrite Hrun. reflexivity.
Defined.

(** * Further properties *)

(** ** Decoding and encoding again (lines 79 and 121) *)







Lemma pruned_refl a : pruned a a.
Proof. induction a; constructor; assumption. Qed.






(** X2.  A first read of ASCII bytes only is decoded to itself and
    encoded to itself: a plain ASCII request reaches the upstream
    byte for byte. *)
Theorem ascii_read_survives_recoding raw :
  Forall (fun b => 0 <= b < 128) raw ->
  utf8_decode_ignore raw = raw
  /\ utf8_encode (utf8_decode_ignore raw) = Some raw.
Proof.
  intros Hascii.
  assert (Henc : utf8_encode raw = Some raw).
  { induction Hascii as [|b raw Hb Hraw IH]; [reflexivity|].
    cbn [utf8_encode]. rewrite IH.
    replace (utf8_encode_char b) with (Some [b])
      by (unfold utf8_encode_char; split_tests; reflexivity).
    reflexivity. }
  rewrite (decode_encode raw raw Henc). split; [reflexivity|exact Henc].
Qed.

(** ** Parsing the request line (lines 85-88 and 132) *)

(** X3.  Line 86 raises [IndexError] exactly when the first line
    contains no space. *)
Theorem target_token_missing_iff l :
  target_token l = None <-> ~ In 32 l.
Proof.
  split.
  - intros Hnone Hin. exact (target_token_space l Hin Hnone).
  - apply target_token_no_space.
Qed.

Lemma first_field sep : forall s cur,
  exists p rest,
    s = p ++ rest
    /\ hd [] (split_go sep 0 None cur s) = cur ++ p
    /\ (rest = [] \/ startswith sep rest = true)
    /\ (forall a b, p = a ++ b -> b <> [] ->
          startswith sep (b ++ rest) = false).
Proof.
  induction s as [|c s IH]; intros cur.
  - exists [], []. cbn. rewrite app_nil_r. repeat split; auto.
    intros a b H Hb. destruct a, b; try discriminate. congruence.
  - cbn [split_go]. destruct (startswith sep (c :: s)) eqn:Hsep.
    + exists [], (c :: s). cbn. rewrite app_nil_r. repeat split; auto.
      intros a b H Hb. destruct a, b; try discriminate. congruence.
    + destruct (IH (cur ++ [c])) as (p & rest & Hs & Hhd & Hrest & Hfree).
      exists (c :: p), rest. rewrite Hhd, <- app_assoc. cbn.
      split; [rewrite Hs; reflexivity|]. split; [reflexivity|].
      split; [exact Hrest|].
      intros a b H Hb. destruct a as [|x a]; cbn in H.
      * subst b. cbn. rewrite <- Hs. exact Hsep.
      * injection H as _ H. apply (Hfree a b H Hb).
Qed.

(** X4.  The first line (line 85) is the request up to its first
    CRLF: the request is the first line followed by nothing or by
    text that starts with CRLF, and no CRLF starts inside the first
    line. *)
Theorem first_line_stops_at_crlf request :
  exists rest,
    request = first_line_of request ++ rest
    /\ (rest = [] \/ startswith CRLF rest = true)
    /\ (forall a b, first_line_of request = a ++ b -> b <> [] ->
          startswith CRLF (b ++ rest) = false).
Proof.
  unfold first_line_of, str_split.
  destruct (first_field CRLF request []) as (p & rest & Hs & Hhd & Hr & Hf).
  exists rest. rewrite Hhd. cbn [app]. auto.
Qed.

Lemma split_go_at_sep c m : forall cur t,
  ~ In c m ->
  split_go [c] 0 None cur (m ++ c :: t)
  = (cur ++ m) :: split_go [c] 0 None [] t.
Proof.
  induction m as [|x m IH]; intros cur t Hin; cbn [app split_go startswith].
  - rewrite Z.eqb_refl, app_nil_r. reflexivity.
  - destruct (Z.eqb_spec c x) as [->|Hne].
    + exfalso. apply Hin. left. reflexivity.
    + cbn [andb]. rewrite IH.
      * rewrite <- app_assoc. reflexivity.
      * intros H. apply Hin. right. exact H.
Qed.

Lemma hd_split_go_field c u : forall cur tail,
  ~ In c u -> tail = [] \/ (exists r, tail = c :: r) ->
  hd [] (split_go [c] 0 None cur (u ++ tail)) = cur ++ u.
Proof.
  intros cur tail Hin [->|[r ->]].
  - rewrite app_nil_r, split_go_no_sep by exact Hin. reflexivity.
  - rewrite split_go_at_sep by exact Hin. reflexivity.
Qed.

(** X5.  On a first line of the shape [method SP target] or
    [method SP target SP ...], with no space inside method and target,
    line 86 takes [target] as the URL and the method token is
    [method]. *)
Theorem target_is_second_field m u tail :
  ~ In 32 m -> ~ In 32 u ->
  tail = [] \/ (exists r, tail = 32 :: r) ->
  method_token (m ++ 32 :: u ++ tail) = m
  /\ target_token (m ++ 32 :: u ++ tail) = Some u.
Proof.
  intros Hm Hu Htail. unfold method_token, target_token, str_split, SPACE.
  rewrite split_go_at_sep by exact Hm. cbn [hd nth_error app]. split;
    [reflexivity|].
  pose proof (hd_split_go_field 32 u [] tail Hu Htail) as Hhd.
  pose proof (split_go_length [32] (u ++ tail) 0 None []) as Hlen.
  destruct (split_go [32] 0 None [] (u ++ tail)) as [|x xs];
    [cbn in Hlen; lia|].
  cbn in Hhd. subst x. reflexivity.
Qed.

Lemma split_go_count c s : forall cur,
  List.length (split_go [c] 0 None cur s) = S (count_occ Z.eq_dec s c).
Proof.
  induction s as [|x s IH]; intros cur; [reflexivity|].
  cbn [split_go startswith count_occ].
  destruct (Z.eqb_spec c x) as [->|Hne]; cbn [andb].
  - destruct (Z.eq_dec x x) as [_|Hx]; [|congruence].
    cbn [List.length]. change (List.length [x] - 1)%nat with 0%nat.
    rewrite IH. reflexivity.
  - destruct (Z.eq_dec x c) as [Hx|_]; [congruence|]. apply IH.
Qed.

Section Targets.

Variable py : PyLib.

(** X6.  Line 132 unpacks [url.split(':')] into two names: a CONNECT
    target with no colon or with more than one (an IPv6 literal, for
    one) raises [ValueError], whatever the port text. *)
Theorem connect_target_needs_one_colon url :
  count_occ Z.eq_dec url 58 <> 1%nat ->
  https_target py url = inl ValueError.
Proof.
  intros Hcount. unfold https_target.
  pose proof (split_go_count 58 url []) as Hlen.
  unfold str_split, COLON.
  destruct (split_go [58] 0 None [] url) as [|a [|b [|c l]]];
    cbn [List.length] in Hlen; try reflexivity.
  exfalso. apply Hcount. lia.
Qed.

(** X7.  A CONNECT target with exactly one colon is split there: the
    host is the text before the colon, taken as it is, and the port is
    [int] of the text behind it; when [int] raises, so does line
    133. *)
Theorem connect_target_splits_at_colon host port_text :
  ~ In 58 host -> ~ In 58 port_text ->
  https_target py (host ++ 58 :: port_text)
  = match int_of_str py port_text with
    | Some p => inr (Some host, p)
    | None => inl ValueError
    end.
Proof.
  intros Hhost Hport. unfold https_target, str_split, COLON.
  rewrite split_go_at_sep by exact Hhost.
  rewrite split_go_no_sep by exact Hport. reflexivity.
Qed.

End Targets.

(** ** Every run of the handler (lines 74-147) *)

Ltac trace_evs :=
  cbn [trace stats log_event with_stats fst snd];
  repeat (rewrite <- app_assoc; cbn [app]);
  reflexivity.

Section Runs.

Variable py : PyLib.
Variable buffer_size : Z.
Variable env : Env.

Ltac failed_run raw pre :=
  destruct (on_send env _ Client error_response); reduce_run;
  destruct (on_close env _ Client); reduce_run;
  first [ solve [ eexists _, 1, 0, 0; split; [trace_evs|];
                  repeat (split; [cbn; lia|]);
                  apply (ran_failed raw pre true); [assumption|constructor] ]
        | solve [ eexists _, 1, 1, 0; split; [trace_evs|];
                  repeat (split; [cbn; lia|]);
                  apply (ran_failed raw pre false);
                  [assumption|constructor] ] ].

Lemma handler_runs fuel w :
  exists evs dt de da,
    trace (snd (handle_client py buffer_size env fuel w)) = trace w ++ evs
    /\ total_requests (stats (snd (handle_client py buffer_size env fuel w)))
       = total_requests (stats w) + dt
    /\ errors (stats (snd (handle_client py buffer_size env fuel w)))
       = errors (stats w) + de
    /\ active_connections
         (stats (snd (handle_client py buffer_size env fuel w)))
       = active_connections (stats w) + da
    /\ handler_run evs (fst (handle_client py buffer_size env fuel w))
         dt de da.
Proof.
  run_handler_steps.
  destruct (on_recv env (trace w) Client buffer_size) as [raw|].
  2: { destruct (on_close env _ Client); reduce_run;
         (eexists _, 0, 1, 0; split; [trace_evs|];
          repeat (split; [cbn; lia|]); constructor). }
  destruct (is_empty (utf8_decode_ignore raw)) eqn:Hempty.
  { assert (utf8_decode_ignore raw = [])
      by (destruct (utf8_decode_ignore raw); [reflexivity|discriminate]).
    destruct (on_close env _ Client); reduce_run;
      (eexists _, 0, 0, 0; split; [trace_evs|];
       repeat (split; [cbn; lia|]); constructor; assumption). }
  apply is_empty_false in Hempty. reduce_run.
  destruct (target_token _) as [url|] eqn:Hurl.
  2: { destruct (on_close env _ Client); reduce_run;
         (eexists _, 1, 1, 0; split; [trace_evs|];
          repeat (split; [cbn; lia|]); constructor; assumption). }
  destruct (route_of _).
  - destruct (https_target py url) as [e|[host port]]; reduce_run.
    { failed_run raw (@nil Event). }
    destruct (on_socket env _); reduce_run.
    2: { failed_run raw [EvSocket false]. }
    destruct (on_connect env _ host port); reduce_run.
    2: { failed_run raw [EvSocket true; EvConnect host port false]. }
    destruct (on_send env _ Client established_response); reduce_run.
    2: { failed_run raw [EvSocket true; EvConnect host port true;
                         EvSend Client established_response false]. }
    enter_relay.
    destruct Hend as [(-> & -> & ->)|(-> & Ht & cs & ->)].
    + rewrite !app_nil_r in Htr.
      eexists _, 1, 0, 1. cbn [fst snd]. rewrite Htr.
      split; [trace_evs|]. rewrite Hst.
      repeat (split; [cbn; lia|]).
      apply (ran_running raw [EvSocket true; EvConnect host port true;
                              EvSend Client established_response true] q);
        [assumption|constructor|assumption].
    + destruct (on_close env (trace w0) Client); reduce_run;
        (eexists _, 1, 0, 0; rewrite Htr; split; [trace_evs|]; rewrite Hst;
         repeat (split; [cbn; lia|]);
         apply (ran_relayed raw [EvSocket true; EvConnect host port true;
                                 EvSend Client established_response true]
                  q t cs);
         [assumption|constructor|assumption|assumption]).
  - destruct (http_target py (utf8_decode_ignore raw) url)
      as [e|[host port]]; reduce_run.
    { failed_run raw (@nil Event). }
    destruct (on_socket env _); reduce_run.
    2: { failed_run raw [EvSocket false]. }
    destruct (on_connect env _ host port); reduce_run.
    2: { failed_run raw [EvSocket true; EvConnect host port false]. }
    destruct (utf8_encode (utf8_decode_ignore raw)) as [data|]; reduce_run.
    2: { failed_run raw [EvSocket true; EvConnect host port true]. }
    destruct (on_send env _ Server data); reduce_run.
    2: { failed_run raw [EvSocket true; EvConnect host port true;
                         EvSend Server data false]. }
    enter_relay.
    destruct Hend as [(-> & -> & ->)|(-> & Ht & cs & ->)].
    + rewrite !app_nil_r in Htr.
      eexists _, 1, 0, 1. cbn [fst snd]. rewrite Htr.
      split; [trace_evs|]. rewrite Hst.
      repeat (split; [cbn; lia|]).
      apply (ran_running raw [EvSocket true; EvConnect host port true;
                              EvSend Server data true] q);
        [assumption|constructor|assumption].
    + destruct (on_close env (trace w0) Client); reduce_run;
        (eexists _, 1, 0, 0; rewrite Htr; split; [trace_evs|]; rewrite Hst;
         repeat (split; [cbn; lia|]);
         apply (ran_relayed raw [EvSocket true; EvConnect host port true;
                                 EvSend Server data true] q t cs);
         [assumption|constructor|assumption|assumption]).
Qed.

End Runs.

(** ** What the handler never does *)

Lemma count_events_app p a b :
  count_events p (a ++ b) = (count_events p a + count_events p b)%nat.
Proof. unfold count_events. rewrite filter_app, length_app. reflexivity. Qed.

Lemma existsb_count p evs :
  existsb p evs = false <-> count_events p evs = 0%nat.
Proof.
  unfold count_events. induction evs as [|e evs IH]; cbn; [tauto|].
  destruct (p e); cbn; [split; [discriminate|lia]|exact IH].
Qed.

(** The relay makes no call but [select], [recv] and [send]. *)
Lemma pumped_only_pumps p q :
  (forall r, p (EvSelect r) = false) ->
  (forall s r, p (EvRecv s r) = false) ->
  (forall s d ok, p (EvSend s d ok) = false) ->
  pumped q -> existsb p q = false.
Proof.
  intros Hsel Hrecv Hsend. induction 1; cbn; rewrite ?Hsel, ?Hrecv, ?Hsend;
    auto.
Qed.

Lemma stopped_only_pumps p t :
  (forall r, p (EvSelect r) = false) ->
  (forall s r, p (EvRecv s r) = false) ->
  (forall s d ok, p (EvSend s d ok) = false) ->
  stopped t -> existsb p t = false.
Proof.
  intros Hsel Hrecv Hsend. destruct 1; cbn;
    rewrite ?Hsel, ?Hrecv, ?Hsend; auto.
Qed.

Section Never.

Variable py : PyLib.
Variable buffer_size : Z.
Variable env : Env.

(** X8.  One handler adds 0 or 1 to [total_requests] and 0 or 1 to
    [errors], never more and never less; an error without a counted
    request is a first [recv] that raised.  While the handler runs the
    active-connection counter is one above its start, and it is back
    there once the handler has ended. *)
Theorem counters_move_by_at_most_one fuel w :
  let o := fst (handle_client py buffer_size env fuel w) in
  let w' := snd (handle_client py buffer_size env fuel w) in
  (added_total w w' = 0 \/ added_total w w' = 1)
  /\ (added_errors w w' = 0 \/ added_errors w w' = 1)
  /\ (added_errors w w' = 1 /\ added_total w w' = 0 <->
      exists c, trace w' = trace w ++ [EvRecv Client None; EvClose Client c])
  /\ active_connections (stats w')
     = active_connections (stats w)
       + match o with OutOfFuel => 1 | _ => 0 end.
Proof.
  cbv zeta. unfold added_total, added_errors.
  destruct (handler_runs py buffer_size env fuel w)
    as (evs & dt & de & da & Htr & Htot & Herr & Hact & Hrun).
  rewrite Htr, Htot, Herr, Hact.
  destruct Hrun as [c|raw c He|raw c He Ht|raw pre ok c He Hs
                    |raw pre q t cs c He Hs Hq Ht|raw pre q He Hs Hq].
  - split; [lia|]. split; [lia|]. split; [|lia].
    split; [intros _; exists c; reflexivity|lia].
  - split; [lia|]. split; [lia|]. split; [|lia].
    split; [lia|]. intros [c' H]. apply app_inv_head in H. discriminate.
  - split; [lia|]. split; [lia|]. split; [|lia].
    split; [lia|]. intros [c' H]. apply app_inv_head in H. discriminate.
  - split; [lia|]. split; [destruct ok; lia|]. split; [|lia].
    split; [lia|]. intros [c' H]. apply app_inv_head in H. discriminate.
  - split; [lia|]. split; [lia|]. split; [|lia].
    split; [lia|]. intros [c' H]. apply app_inv_head in H. discriminate.
  - split; [lia|]. split; [lia|]. split; [|lia].
    split; [lia|]. intros [c' H]. apply app_inv_head in H. discriminate.
Qed.

(** X9.  [total_requests] counts the connections whose first read
    decoded to a non-empty text: the handler adds 1 exactly when its
    first call is a [recv] that returned such a read, whatever happens
    afterwards. *)
Theorem total_counts_nonempty_requests fuel w :
  let w' := snd (handle_client py buffer_size env fuel w) in
  added_total w w' = 1 <->
  exists raw rest,
    trace w' = trace w ++ EvRecv Client (Some raw) :: rest
    /\ utf8_decode_ignore raw <> [].
Proof.
  cbv zeta. unfold added_total.
  destruct (handler_runs py buffer_size env fuel w)
    as (evs & dt & de & da & Htr & Htot & Herr & Hact & Hrun).
  rewrite Htr, Htot.
  destruct Hrun as [c|raw c He|raw c He Ht|raw pre ok c He Hs
                    |raw pre q t cs c He Hs Hq Ht|raw pre q He Hs Hq].
  - split; [lia|]. intros (raw & rest & H & _).
    apply app_inv_head in H. discriminate.
  - split; [lia|]. intros (raw' & rest & H & Hne).
    apply app_inv_head in H. injection H as <- _. contradiction.
  - split; [|lia]. intros _. eexists raw, _. split; [reflexivity|exact He].
  - split; [|lia]. intros _. eexists raw, _. split; [reflexivity|exact He].
  - split; [|lia]. intros _. eexists raw, _. split; [reflexivity|exact He].
  - split; [|lia]. intros _. eexists raw, _. split; [reflexivity|exact He].
Qed.

Lemma setup_no p pre b :
  (forall ok, p (EvSocket ok) = false) ->
  (forall h q ok, p (EvConnect h q ok) = false) ->
  (forall s d ok, p (EvSend s d ok) = false) ->
  setup pre b -> existsb p pre = false.
Proof.
  intros Hsock Hconn Hsend. destruct 1; cbn;
    rewrite ?Hsock, ?Hconn, ?Hsend; reflexivity.
Qed.

(** X10.  An error is counted only for a connection that never got to
    the relay: a handler that adds to [errors] has made no [select]
    call and has not closed the upstream socket.  The other way
    round, once the handler has called [select], nothing that happens
    in the relay is counted. *)
Theorem errors_only_before_relay fuel w :
  let w' := snd (handle_client py buffer_size env fuel w) in
  exists evs,
    trace w' = trace w ++ evs
    /\ (added_errors w w' = 0
        \/ added_errors w w' = 1
           /\ existsb is_select evs = false
           /\ existsb (is_close Server) evs = false).
Proof.
  cbv zeta. unfold added_errors.
  destruct (handler_runs py buffer_size env fuel w)
    as (evs & dt & de & da & Htr & Htot & Herr & Hact & Hrun).
  exists evs. split; [exact Htr|]. rewrite Herr.
  destruct Hrun as [c|raw c He|raw c He Ht|raw pre ok c He Hs
                    |raw pre q t cs c He Hs Hq Ht|raw pre q He Hs Hq];
    try (left; lia); try (right; split; [lia|split; reflexivity]).
  destruct ok; [left; lia|right]. split; [lia|].
  cbn [existsb is_select is_close orb].
  rewrite !existsb_app. cbn.
  rewrite (setup_no is_select pre false), (setup_no (is_close Server) pre false)
    by (auto; intros; reflexivity).
  split; reflexivity.
Qed.


Lemma relay_counts p q t :
  (forall r, p (EvSelect r) = false) ->
  (forall s r, p (EvRecv s r) = false) ->
  (forall s d ok, p (EvSend s d ok) = false) ->
  pumped q -> stopped t ->
  count_events p q = 0%nat /\ count_events p t = 0%nat.
Proof.
  intros. split; apply existsb_count;
    [apply pumped_only_pumps|apply stopped_only_pumps]; auto.
Qed.

(** The socket calls of a run: either no [connect] at all and at most
    one [socket] call, or the run starts with the first read, the one
    [socket] call, which succeeded, and right after it the one
    [connect]. *)
Lemma run_connect_shape evs o dt de da :
  handler_run evs o dt de da ->
  (count_events is_connect evs = 0 /\ count_events is_socket evs <= 1)%nat
  \/ exists raw h p ok post,
       evs = EvRecv Client (Some raw) :: EvSocket true
             :: EvConnect h p ok :: post
       /\ count_events is_socket post = 0%nat
       /\ count_events is_connect post = 0%nat.
Proof.
  intros Hrun.
  destruct Hrun as [c|raw c He|raw c He Ht|raw pre ok c He Hs
                    |raw pre q t cs c He Hs Hq Ht|raw pre q He Hs Hq];
    try (left; cbn; lia).
  - inversion Hs; subst; try (left; cbn; lia);
      right; eexists raw, _, _, _, _; (split; [reflexivity|]);
      split; reflexivity.
  - inversion Hs; subst. right.
    exists raw, h, p, true,
      (EvSend s d true :: q ++ t ++ [EvClose Server cs; EvClose Client c]).
    split; [reflexivity|].
    change (EvSend s d true
            :: q ++ t ++ [EvClose Server cs; EvClose Client c])
      with ([EvSend s d true] ++ q ++ t
            ++ [EvClose Server cs; EvClose Client c]).
    rewrite !count_events_app.
    destruct (relay_counts is_connect q t) as [-> ->]; auto.
    destruct (relay_counts is_socket q t) as [-> ->]; auto.
  - inversion Hs; subst. right.
    exists raw, h, p, true, (EvSend s d true :: q).
    split; [reflexivity|].
    change (EvSend s d true :: q) with ([EvSend s d true] ++ q).
    rewrite !count_events_app.
    destruct (relay_counts is_connect q [EvSelect None]) as [-> _];
      [auto|auto|auto|auto|constructor|].
    destruct (relay_counts is_socket q [EvSelect None]) as [-> _];
      [auto|auto|auto|auto|constructor|].
    split; reflexivity.
Qed.

(** X11.  One connection, one attempt: a handler creates at most one
    upstream socket and calls [connect] at most once, whatever fails.
    A [connect] is never made without a socket: wherever a [connect]
    stands in the handler's calls, the call right before it is the
    [socket] call, it succeeded, and no other [socket] or [connect]
    call comes before or after the two. *)
Theorem single_connect_attempt fuel w :
  exists evs,
    trace (snd (handle_client py buffer_size env fuel w)) = trace w ++ evs
    /\ (count_events is_connect evs <= count_events is_socket evs <= 1)%nat
    /\ (forall before h p ok after,
          evs = before ++ EvConnect h p ok :: after ->
          exists raw,
            before = [EvRecv Client (Some raw); EvSocket true]
            /\ count_events is_socket after = 0%nat
            /\ count_events is_connect after = 0%nat).
Proof.
  destruct (handler_runs py buffer_size env fuel w)
    as (evs & dt & de & da & Htr & Htot & Herr & Hact & Hrun).
  exists evs. split; [exact Htr|].
  destruct (run_connect_shape _ _ _ _ _ Hrun)
    as [[Hc Hs]|(raw & h & p & ok & post & -> & Hs & Hc)].
  - split; [lia|]. intros before h p ok after ->.
    rewrite count_events_app in Hc. cbn in Hc. lia.
  - split.
    + change (EvRecv Client (Some raw) :: EvSocket true
              :: EvConnect h p ok :: post)
        with ([EvRecv Client (Some raw); EvSocket true; EvConnect h p ok]
              ++ post).
      rewrite !count_events_app, Hs, Hc. cbn. lia.
    + intros before h' p' ok' after Heq. exists raw.
      destruct before as [|e1 [|e2 [|e3 before]]]; cbn in Heq;
        try discriminate.
      * injection Heq; intros; subst. auto.
      * exfalso. injection Heq; intros; subst.
        rewrite count_events_app in Hc. cbn in Hc. lia.
Qed.

Lemma behind_three {A} (a b c e : A) rest pre post :
  a :: b :: c :: rest = pre ++ e :: post ->
  e <> a -> e <> b -> e <> c -> In c pre.
Proof.
  intros H Ha Hb Hc.
  destruct pre as [|x [|y [|z pre]]]; cbn in H; injection H; intros; subst;
    try congruence.
  right. right. left. reflexivity.
Qed.

(** X12.  The handler touches the upstream socket only behind a
    [connect] that returned: every read, write or close on it comes
    later in the trace than such a [connect].  It closes the upstream
    socket at most once. *)
Theorem upstream_used_only_after_connect fuel w :
  exists evs,
    trace (snd (handle_client py buffer_size env fuel w)) = trace w ++ evs
    /\ (count_events (is_close Server) evs <= 1)%nat
    /\ (forall pre e post,
          evs = pre ++ e :: post -> on_upstream e = true ->
          exists h p, In (EvConnect h p true) pre).
Proof.
  destruct (handler_runs py buffer_size env fuel w)
    as (evs & dt & de & da & Htr & Htot & Herr & Hact & Hrun).
  exists evs. split; [exact Htr|].
  assert (Hquiet : forall l : list Event, existsb on_upstream l = false ->
            forall pre e post, l = pre ++ e :: post ->
            on_upstream e = true -> exists h p, In (EvConnect h p true) pre).
  { intros l Hl pre e post Heq He. rewrite Heq in Hl.
    apply existsb_false_at in Hl. congruence. }
  assert (Hbehind : forall raw h p rest pre e post,
            EvRecv Client (Some raw) :: EvSocket true
              :: EvConnect h p true :: rest = pre ++ e :: post ->
            on_upstream e = true -> exists h p, In (EvConnect h p true) pre).
  { intros raw h p rest pre e post Heq He. exists h, p.
    eapply behind_three; [exact Heq| | |]; intros ->; discriminate. }
  destruct Hrun as [c|raw c He|raw c He Ht|raw pre ok c He Hs
                    |raw pre q t cs c He Hs Hq Ht|raw pre q He Hs Hq].
  - split; [cbn; lia|]. apply Hquiet. reflexivity.
  - split; [cbn; lia|]. apply Hquiet. reflexivity.
  - split; [cbn; lia|]. apply Hquiet. reflexivity.
  - split; [destruct Hs; cbn; lia|].
    inversion Hs; subst; cbn [app];
      try (apply Hquiet; reflexivity); apply Hbehind.
  - split.
    + change (EvRecv Client (Some raw)
              :: pre ++ q ++ t ++ [EvClose Server cs; EvClose Client c])
        with ([EvRecv Client (Some raw)] ++ pre ++ q ++ t
              ++ [EvClose Server cs; EvClose Client c]).
      rewrite !count_events_app.
      destruct (relay_counts (is_close Server) q t) as [-> ->]; auto.
      inversion Hs; subst; cbn; lia.
    + inversion Hs; subst; cbn [app]. apply Hbehind.
  - split.
    + change (EvRecv Client (Some raw) :: pre ++ q)
        with ([EvRecv Client (Some raw)] ++ pre ++ q).
      rewrite !count_events_app.
      destruct (relay_counts (is_close Server) q [EvSelect None])
        as [-> _]; [auto|auto|auto|auto|constructor|].
      inversion Hs; subst; cbn; lia.
    + inversion Hs; subst; cbn [app]. apply Hbehind.
Qed.

(** X13.  A first [recv] on the client socket that raises (a timeout
    of line 77, a reset) is counted as one error and as no request;
    nothing is sent and the client socket is closed. *)
Theorem failed_first_read_counts_one_error fuel w :
  on_recv env (trace w) Client buffer_size = None ->
  exists c w',
    handle_client py buffer_size env fuel w = (Ret tt, w')
    /\ trace w' = trace w ++ [EvRecv Client None; EvClose Client c]
    /\ errors (stats w') = errors (stats w) + 1
    /\ total_requests (stats w') = total_requests (stats w)
    /\ active_connections (stats w') = active_connections (stats w).
Proof.
  intros Hrecv. run_handler_steps. rewrite Hrecv. reduce_run.
  destruct (on_close env _ Client); reduce_run;
    eexists _, _; (split; [reflexivity|]); reduce_run;
    (split; [trace_eq|]); cbn; repeat split; lia.
Qed.

(** X14.  Whenever the target of a request cannot be resolved (a
    CONNECT target that is not [host:port], a port that is no integer,
    a URL that [urlparse] rejects, a missing [Host:] line) the handler
    makes no upstream call at all: it hands the 500 response to the
    client socket and closes it, and counts an error only when that
    [send] raises. *)
Theorem unresolved_target_answers_500 fuel w raw url :
  on_recv env (trace w) Client buffer_size = Some raw ->
  target_token (first_line_of (utf8_decode_ignore raw)) = Some url ->
  upstream_target py (utf8_decode_ignore raw) = None ->
  exists ok c w',
    handle_client py buffer_size env fuel w = (Ret tt, w')
    /\ trace w' = trace w ++ [EvRecv Client (Some raw);
                              EvSend Client error_response ok;
                              EvClose Client c]
    /\ errors (stats w') = errors (stats w) + (if ok then 0 else 1)
    /\ total_requests (stats w') = total_requests (stats w) + 1
    /\ active_connections (stats w') = active_connections (stats w).
Proof.
  intros Hrecv Hurl Hnone. run_handler_steps. rewrite Hrecv.
  unfold upstream_target in Hnone. rewrite Hurl in *.
  destruct (is_empty (utf8_decode_ignore raw)) eqn:Hempty.
  { destruct (utf8_decode_ignore raw); discriminate. }
  destruct (route_of (first_line_of (utf8_decode_ignore raw))).
  - destruct (https_target py url) as [e|hp]; [|discriminate]. reduce_run.
    destruct (on_send env _ Client error_response); reduce_run;
      destruct (on_close env _ Client); reduce_run;
      eexists _, _, _; (split; [reflexivity|]); reduce_run;
      (split; [trace_eq|]); cbn; repeat split; lia.
  - destruct (http_target py (utf8_decode_ignore raw) url) as [e|hp];
      [|discriminate]. reduce_run.
    destruct (on_send env _ Client error_response); reduce_run;
      destruct (on_close env _ Client); reduce_run;
      eexists _, _, _; (split; [reflexivity|]); reduce_run;
      (split; [trace_eq|]); cbn; repeat split; lia.
Qed.

(** X15.  When [connect] returned but the 200 response cannot be
    written (the client has gone), [handle_https] falls into its
    handler: the 500 response is tried on the same client socket and
    the client socket is closed.  The upstream socket that was just
    connected is not closed by the handler. *)
Theorem unwritable_200_leaves_upstream_open fuel w raw url host port :
  on_recv env (trace w) Client buffer_size = Some raw ->
  route_of (first_line_of (utf8_decode_ignore raw)) = ViaHttps ->
  target_token (first_line_of (utf8_decode_ignore raw)) = Some url ->
  https_target py url = inr (host, port) ->
  on_socket env (trace w ++ [EvRecv Client (Some raw)]) = true ->
  on_connect env (trace w ++ [EvRecv Client (Some raw); EvSocket true])
    host port = true ->
  on_send env (trace w ++ [EvRecv Client (Some raw); EvSocket true;
                           EvConnect host port true])
    Client established_response = false ->
  exists ok c w',
    handle_client py buffer_size env fuel w = (Ret tt, w')
    /\ trace w' = trace w ++ [EvRecv Client (Some raw); EvSocket true;
                              EvConnect host port true;
                              EvSend Client established_response false;
                              EvSend Client error_response ok;
                              EvClose Client c]
    /\ existsb (is_close Server) (trace w') = existsb (is_close Server) (trace w)
    /\ errors (stats w') = errors (stats w) + (if ok then 0 else 1).
Proof.
  intros Hrecv Hroute Hurl Htarget Hsocket Hconnect Hsend.
  run_handler_steps. rewrite Hrecv.
  destruct (is_empty (utf8_decode_ignore raw)) eqn:Hempty.
  { destruct (utf8_decode_ignore raw); discriminate. }
  rewrite Hurl, Hroute, Htarget. reduce_run.
  rewrite Hsocket. reduce_run. rewrite <- app_assoc. cbn [app].
  rewrite Hconnect. reduce_run. rewrite <- !app_assoc. cbn [app].
  rewrite Hsend. reduce_run.
  destruct (on_send env _ Client error_response); reduce_run;
    destruct (on_close env _ Client); reduce_run;
    eexists _, _, _; (split; [reflexivity|]); reduce_run;
    (split; [trace_eq|]);
    (split; [rewrite !existsb_app; cbn; rewrite ?orb_false_r; reflexivity
            |cbn; lia]).
Qed.



End Never.

(** ** The handler and the shared counters *)

Lemma framed_ret {A} (a : A) : framed (ret a).
Proof. intros dt da de w. reflexivity. Qed.

Lemma framed_raise {A} e : framed (@raise A e).
Proof. intros dt da de w. reflexivity. Qed.

Lemma framed_out_of_fuel {A} : framed (@out_of_fuel A).
Proof. intros dt da de w. reflexivity. Qed.

Lemma framed_bind {A B} (m : M A) (k : A -> M B) :
  framed m -> (forall a, framed (k a)) -> framed (bind m k).
Proof.
  intros Hm Hk dt da de w. unfold bind. rewrite Hm.
  destruct (m w) as [[a|e|] w1]; cbn [fst snd]; [apply Hk| |]; reflexivity.
Qed.

Lemma framed_try_except {A} (m : M A) h :
  framed m -> (forall e, framed (h e)) -> framed (try_except m h).
Proof.
  intros Hm Hh dt da de w. unfold try_except. rewrite Hm.
  destruct (m w) as [[a|e|] w1]; cbn [fst snd]; [|apply Hh|]; reflexivity.
Qed.

Lemma framed_try_finally {A} (m : M A) fin :
  framed m -> framed fin -> framed (try_finally m fin).
Proof.
  intros Hm Hf dt da de w. unfold try_finally. rewrite Hm.
  destruct (m w) as [[a|e|] w1]; cbn [fst snd]; try reflexivity;
    rewrite Hf; destruct (fin w1) as [[[]|e'|] w2]; reflexivity.
Qed.

Lemma shift_bump (g : Stats -> Stats) :
  (forall dt da de s, shift dt da de (g s) = g (shift dt da de s)) ->
  framed (update_stats g).
Proof.
  intros Hg dt da de w. unfold update_stats, with_stats. cbn.
  rewrite Hg. reflexivity.
Qed.

Lemma framed_add_active d : framed (add_active d).
Proof.
  apply shift_bump. intros. unfold shift, bump_active. cbn. f_equal; lia.
Qed.

Lemma framed_incr_total : framed incr_total.
Proof.
  apply shift_bump. intros. unfold shift, bump_total. cbn. f_equal; lia.
Qed.

Lemma framed_incr_errors : framed incr_errors.
Proof.
  apply shift_bump. intros. unfold shift, bump_errors. cbn. f_equal; lia.
Qed.

Section Frame.

Variable py : PyLib.
Variable buffer_size : Z.
Variable env : Env.

Lemma framed_recv s : framed (recv buffer_size env s).
Proof.
  intros dt da de w. unfold recv. cbn [trace with_stats].
  destruct (on_recv env (trace w) s buffer_size); reflexivity.
Qed.

Lemma framed_send s d : framed (send env s d).
Proof.
  intros dt da de w. unfold send. cbn [trace with_stats].
  destruct (on_send env (trace w) s d); reflexivity.
Qed.

Lemma framed_new_socket : framed (new_socket env).
Proof.
  intros dt da de w. unfold new_socket. cbn [trace with_stats].
  destruct (on_socket env (trace w)); reflexivity.
Qed.

Lemma framed_connect h p : framed (connect env h p).
Proof.
  intros dt da de w. unfold connect. cbn [trace with_stats].
  destruct (on_connect env (trace w) h p); reflexivity.
Qed.

Lemma framed_select : framed (select env).
Proof.
  intros dt da de w. unfold select. cbn [trace with_stats].
  destruct (on_select env (trace w)); reflexivity.
Qed.

Lemma framed_close s : framed (close env s).
Proof.
  intros dt da de w. unfold close. cbn [trace with_stats].
  destruct (on_close env (trace w) s); reflexivity.
Qed.

Lemma framed_relay_ready ready : framed (relay_ready buffer_size env ready).
Proof.
  induction ready as [|sock rest IH]; cbn [relay_ready].
  - apply framed_ret.
  - apply framed_bind.
    + apply framed_try_except; [|intros; apply framed_ret].
      apply framed_bind; [apply framed_recv|].
      intros data. destruct (is_empty data); [apply framed_ret|].
      apply framed_bind; [apply framed_send|intros; apply framed_ret].
    + intros [|]; [exact IH|apply framed_ret].
Qed.

Lemma framed_relay_loop fuel : framed (relay_loop buffer_size env fuel).
Proof.
  induction fuel as [|fuel IH]; cbn [relay_loop].
  - apply framed_out_of_fuel.
  - apply framed_bind; [apply framed_select|].
    intros [ready errs]. cbn [fst snd].
    destruct errs; [|apply framed_ret].
    apply framed_bind; [apply framed_relay_ready|].
    intros [|]; [exact IH|apply framed_ret].
Qed.

Lemma framed_relay_data fuel : framed (relay_data buffer_size env fuel).
Proof.
  unfold relay_data. apply framed_try_finally.
  - apply framed_try_except; [apply framed_relay_loop|].
    intros; apply framed_ret.
  - apply framed_try_except; [apply framed_close|intros; apply framed_ret].
Qed.

Lemma framed_lift_target t : framed (lift_target t).
Proof. destruct t; [apply framed_raise|apply framed_ret]. Qed.

Lemma framed_handle_https fuel url :
  framed (handle_https py buffer_size env fuel url).
Proof.
  unfold handle_https. apply framed_try_except; [|intros; apply framed_send].
  apply framed_bind; [apply framed_lift_target|]. intros hp.
  apply framed_bind; [apply framed_new_socket|]. intros _.
  apply framed_bind; [apply framed_connect|]. intros _.
  apply framed_bind; [apply framed_send|]. intros _.
  apply framed_relay_data.
Qed.

Lemma framed_handle_http fuel request url :
  framed (handle_http py buffer_size env fuel request url).
Proof.
  unfold handle_http. apply framed_try_except; [|intros; apply framed_send].
  apply framed_bind; [apply framed_lift_target|]. intros hp.
  apply framed_bind; [apply framed_new_socket|]. intros _.
  apply framed_bind; [apply framed_connect|]. intros _.
  apply framed_bind.
  { unfold encode_request. destruct (utf8_encode request);
      [apply framed_ret|apply framed_raise]. }
  intros data.
  apply framed_bind; [apply framed_send|]. intros _.
  apply framed_relay_data.
Qed.

Lemma framed_serve fuel : framed (serve py buffer_size env fuel).
Proof.
  unfold serve. apply framed_bind; [apply framed_recv|]. intros raw.
  cbv zeta. destruct (is_empty (utf8_decode_ignore raw)); [apply framed_ret|].
  apply framed_bind; [apply framed_incr_total|]. intros _.
  destruct (target_token _) as [url|]; [|apply framed_raise].
  unfold dispatch. destruct (route_of _);
    [apply framed_handle_https|apply framed_handle_http].
Qed.

Lemma framed_handle_client fuel :
  framed (handle_client py buffer_size env fuel).
Proof.
  unfold handle_client. apply framed_try_finally.
  - apply framed_try_except; [|intros; apply framed_incr_errors].
    apply framed_bind; [apply framed_add_active|].
    intros _. apply framed_serve.
  - unfold cleanup. apply framed_bind; [|intros; apply framed_add_active].
    apply framed_try_except; [apply framed_close|intros; apply framed_ret].
Qed.

(** X17.  The handler never reads the counters and only ever adds to
    them: started from counters that differ by fixed amounts, it ends
    the same way and makes the same socket calls, and the counters it
    leaves differ by the same amounts. *)
Theorem handler_ignores_counter_values fuel dt da de w :
  handle_client py buffer_size env fuel (with_stats (shift dt da de) w)
  = (fst (handle_client py buffer_size env fuel w),
     with_stats (shift dt da de)
       (snd (handle_client py buffer_size env fuel w))).
Proof. apply framed_handle_client. Qed.

Lemma handler_from_zero fuel s h :
  handle_client py buffer_size env fuel {| stats := s; trace := h |}
  = (fst (handle_client py buffer_size env fuel
            {| stats := stats0; trace := h |}),
     with_stats (shift (total_requests s) (active_connections s) (errors s))
       (snd (handle_client py buffer_size env fuel
               {| stats := stats0; trace := h |}))).
Proof.
  rewrite <- framed_handle_client. destruct s; reflexivity.
Qed.

End Frame.

(** X18.  Two handlers on the shared counters commute: whichever of
    them runs first, the counters end up the same, and neither
    handler's outcome or socket calls depend on the other having
    run. *)
Theorem handlers_commute_on_counters
    py buffer_size envA fuelA hA envB fuelB hB s :
  let runA s := handle_client py buffer_size envA fuelA
                  {| stats := s; trace := hA |} in
  let runB s := handle_client py buffer_size envB fuelB
                  {| stats := s; trace := hB |} in
  stats (snd (runB (stats (snd (runA s)))))
  = stats (snd (runA (stats (snd (runB s)))))
  /\ fst (runB (stats (snd (runA s)))) = fst (runB s)
  /\ trace (snd (runB (stats (snd (runA s))))) = trace (snd (runB s)).
Proof.
  cbv beta zeta.
  rewrite (handler_from_zero py buffer_size envB fuelB
             (stats (snd (handle_client py buffer_size envA fuelA
                            {| stats := s; trace := hA |}))) hB).
  rewrite (handler_from_zero py buffer_size envA fuelA
             (stats (snd (handle_client py buffer_size envB fuelB
                            {| stats := s; trace := hB |}))) hA).
  rewrite (handler_from_zero py buffer_size envA fuelA s hA).
  rewrite (handler_from_zero py buffer_size envB fuelB s hB).
  cbn [fst snd stats trace with_stats].
  split; [|split; reflexivity].
  unfold shift. cbn. f_equal; lia.
Qed.

(** ** A relay on which nothing happens (lines 152-156) *)

Lemma idle_loop buffer_size env fuel : forall w,
  (forall h, on_select env h = Some ([], [])) ->
  relay_loop buffer_size env fuel w
  = (OutOfFuel,
     {| stats := stats w;
        trace := trace w ++ repeat (EvSelect (Some ([], []))) fuel |}).
Proof.
  induction fuel as [|fuel IH]; intros w Hidle.
  - cbn. rewrite app_nil_r. destruct w; reflexivity.
  - cbn [relay_loop]. unfold bind at 1. unfold select. rewrite Hidle.
    cbn [snd fst relay_ready]. unfold bind, ret. rewrite IH by exact Hidle.
    cbn [trace stats log_event repeat]. rewrite <- app_assoc. reflexivity.
Qed.

(** X19.  The relay has no idle timeout of its own: as long as
    [select] keeps coming back with nothing to read and no error,
    [relay_data] only polls again.  It reads nothing, writes nothing,
    closes nothing and does not end, however many rounds go by. *)
Theorem idle_relay_never_ends buffer_size env fuel w :
  (forall h, on_select env h = Some ([], [])) ->
  relay_data buffer_size env fuel w
  = (OutOfFuel,
     {| stats := stats w;
        trace := trace w ++ repeat (EvSelect (Some ([], []))) fuel |}).
Proof.
  intros Hidle. unfold relay_data, try_finally, try_except.
  rewrite idle_loop by exact Hidle. reflexivity.
Qed.

(** ** The acceptor (lines 44-72 and 182-189) *)

Lemma accept_loop_not_running arrivals p :
  running p = false -> accept_loop arrivals p = (Ret tt, p).
Proof. intros H. destruct arrivals; cbn; rewrite H; reflexivity. Qed.


Lemma accept_loop_blocked arrivals : forall p p',
  accept_loop arrivals p = (OutOfFuel, p') ->
  running p' = true /\ listening p' = listening p
  /\ pool_open p' = pool_open p.
Proof.
  induction arrivals as [|a rest IH]; intros p p'; cbn [accept_loop];
    destruct (running p) eqn:Hrun; try discriminate.
  - intros [= <-]. auto.
  - destruct a; try discriminate.
    + intros H. apply IH in H.
      assert (Hs : listening (submit conn p) = listening p
                   /\ pool_open (submit conn p) = pool_open p)
        by (unfold submit; destruct (pool_open p) eqn:E; cbn; auto).
      destruct Hs as [Hl Hp]. rewrite Hl, Hp in H. exact H.
    + apply IH.
    + rewrite accept_loop_not_running by reflexivity. discriminate.
Qed.



Lemma accept_loop_submits arrivals : forall p,
  running p = true -> pool_open p = true ->
  submitted (snd (accept_loop arrivals p))
  = submitted p ++ accepted_before_stop arrivals.
Proof.
  induction arrivals as [|a rest IH]; intros p Hrun Hpool;
    cbn [accept_loop accepted_before_stop]; rewrite Hrun.
  - cbn. rewrite app_nil_r. reflexivity.
  - destruct a.
    + rewrite IH.
      * unfold submit. rewrite Hpool. cbn. rewrite <- app_assoc. reflexivity.
      * unfold submit. rewrite Hpool. exact Hrun.
      * unfold submit. rewrite Hpool. reflexivity.
    + apply IH; assumption.
    + cbn. rewrite app_nil_r. reflexivity.
    + rewrite accept_loop_not_running by reflexivity.
      cbn. rewrite app_nil_r. reflexivity.
Qed.

(** X21.  Once listening, the acceptor hands every connection that
    arrives to the pool, once and in the order of arrival, until it is
    told to stop: an [accept] that raises is passed over and loses no
    connection, before or after it. *)
Theorem every_arrival_is_submitted_in_order arrivals p :
  pool_open p = true ->
  submitted (snd (start true true arrivals p))
  = submitted p ++ accepted_before_stop arrivals.
Proof.
  intros Hpool. unfold start.
  rewrite accept_loop_submits; [reflexivity|reflexivity|exact Hpool].
Qed.

Lemma accept_loop_shut arrivals : forall p,
  pool_open p = false ->
  submitted (snd (accept_loop arrivals p)) = submitted p.
Proof.
  induction arrivals as [|a rest IH]; intros p Hpool; cbn [accept_loop];
    destruct (running p); try reflexivity.
  destruct a; try reflexivity.
  - rewrite IH; unfold submit; rewrite Hpool; [reflexivity|exact Hpool].
  - apply IH. exact Hpool.
  - rewrite accept_loop_not_running by reflexivity. reflexivity.
Qed.

(** X22.  [stop] shuts the pool down for good, and [start] does not
    make a new one: a proxy started again after [stop] listens and
    accepts, but [submit] raises for every connection, so none of them
    ever reaches a handler. *)
Theorem restarted_proxy_serves_nothing listen_ok thread_ok arrivals p :
  submitted (snd (start listen_ok thread_ok arrivals (stop p)))
  = submitted p.
Proof.
  unfold start. destruct listen_ok; [|reflexivity].
  destruct thread_ok; [|reflexivity].
  rewrite accept_loop_shut; reflexivity.
Qed.

(** ** The further properties on concrete inputs *)


Lemma all_ascii_ok raw :
  all_ascii raw = true -> Forall (fun b => 0 <= b < 128) raw.
Proof.
  unfold all_ascii. intros H. apply Forall_forall. intros b Hb.
  rewrite forallb_forall in H. specialize (H b Hb). lia.
Qed.


Lemma ascii_read_survives_recoding_witness :
  Forall (fun b => 0 <= b < 128) forward_request
  /\ utf8_decode_ignore forward_request = forward_request
  /\ utf8_encode (utf8_decode_ignore forward_request) = Some forward_request.
Proof.
  assert (H : Forall (fun b => 0 <= b < 128) forward_request)
    by (apply all_ascii_ok; reflexivity).
  split; [exact H|].
  exact (ascii_read_survives_recoding forward_request H).
Defined.

Lemma target_is_second_field_witness :
  ~ In 32 (lit "GET") /\ ~ In 32 (lit "/")
  /\ method_token (lit "GET" ++ 32 :: lit "/" ++ 32 :: lit "HTTP/1.1")
     = lit "GET"
  /\ target_token (lit "GET" ++ 32 :: lit "/" ++ 32 :: lit "HTTP/1.1")
     = Some (lit "/").
Proof.
  assert (H1 : ~ In 32 (lit "GET")) by (cbv; intuition discriminate).
  assert (H2 : ~ In 32 (lit "/")) by (cbv; intuition discriminate).
  split; [exact H1|]. split; [exact H2|].
  apply (target_is_second_field (lit "GET") (lit "/")
           (32 :: lit "HTTP/1.1") H1 H2).
  right. eexists. reflexivity.
Defined.

Lemma connect_target_needs_one_colon_witness :
  count_occ Z.eq_dec ipv6_target 58 <> 1%nat
  /\ https_target ascii_py ipv6_target = inl ValueError.
Proof.
  assert (H : count_occ Z.eq_dec ipv6_target 58 <> 1%nat)
    by (vm_compute; discriminate).
  split; [exact H|].
  exact (connect_target_needs_one_colon ascii_py ipv6_target H).
Defined.

Lemma connect_target_splits_at_colon_witness :
  ~ In 58 example_com /\ ~ In 58 (lit "443")
  /\ https_target ascii_py (example_com ++ 58 :: lit "443")
     = inr (Some example_com, 443).
Proof.
  assert (H1 : ~ In 58 example_com) by (cbv; intuition discriminate).
  assert (H2 : ~ In 58 (lit "443")) by (cbv; intuition discriminate).
  split; [exact H1|]. split; [exact H2|].
  exact (connect_target_splits_at_colon ascii_py example_com (lit "443")
           H1 H2).
Defined.

Lemma failed_first_read_counts_one_error_witness :
  on_recv (scripted reset_script) (trace world0) Client 16384 = None
  /\ exists c w',
       handle_client ascii_py 16384 (scripted reset_script) 0 world0
       = (Ret tt, w')
       /\ trace w' = trace world0 ++ [EvRecv Client None; EvClose Client c]
       /\ errors (stats w') = errors (stats world0) + 1
       /\ total_requests (stats w') = total_requests (stats world0)
       /\ active_connections (stats w') = active_connections (stats world0).
Proof.
  split; [reflexivity|].
  apply (failed_first_read_counts_one_error ascii_py 16384
           (scripted reset_script) 0%nat world0).
  reflexivity.
Defined.

Lemma unresolved_target_answers_500_witness :
  on_recv (scripted no_port_script) (trace world0) Client 16384
  = Some no_port_request
  /\ target_token (first_line_of (utf8_decode_ignore no_port_request))
     = Some example_com
  /\ upstream_target ascii_py (utf8_decode_ignore no_port_request) = None
  /\ exists ok c w',
       handle_client ascii_py 16384 (scripted no_port_script) 0 world0
       = (Ret tt, w')
       /\ trace w' = trace world0 ++ [EvRecv Client (Some no_port_request);
                                      EvSend Client error_response ok;
                                      EvClose Client c]
       /\ errors (stats w') = errors (stats world0) + (if ok then 0 else 1)
       /\ total_requests (stats w') = total_requests (stats world0) + 1
       /\ active_connections (stats w') = active_connections (stats world0).
Proof.
  split; [reflexivity|]. split; [vm_compute; reflexivity|].
  split; [vm_compute; reflexivity|].
  apply (unresolved_target_answers_500 ascii_py 16384
           (scripted no_port_script) 0%nat world0 no_port_request
           example_com);
    vm_compute; reflexivity.
Defined.

Lemma unwritable_200_leaves_upstream_open_witness :
  on_recv (scripted client_gone_script) (trace world0) Client 16384
  = Some tunnel_request
  /\ on_send (scripted client_gone_script)
       (trace world0 ++ [EvRecv Client (Some tunnel_request); EvSocket true;
                         EvConnect (Some example_com) 443 true])
       Client established_response = false
  /\ exists ok c w',
       handle_client ascii_py 16384 (scripted client_gone_script) 5 world0
       = (Ret tt, w')
       /\ trace w' = trace world0 ++
            [EvRecv Client (Some tunnel_request); EvSocket true;
             EvConnect (Some example_com) 443 true;
             EvSend Client established_response false;
             EvSend Client error_response ok;
             EvClose Client c]
       /\ existsb (is_close Server) (trace w')
          = existsb (is_close Server) (trace world0)
       /\ errors (stats w') = errors (stats world0) + (if ok then 0 else 1).
Proof.
  split; [reflexivity|]. split; [reflexivity|].
  apply (unwritable_200_leaves_upstream_open ascii_py 16384
           (scripted client_gone_script) 5%nat world0 tunnel_request
           (lit "example.com:443") (Some example_com) 443);
    vm_compute; reflexivity.
Defined.


Lemma idle_relay_never_ends_witness :
  (forall h, on_select idle_env h = Some ([], []))
  /\ relay_data 16384 idle_env 3 world0
     = (OutOfFuel,
        {| stats := stats world0;
           trace := trace world0
                    ++ repeat (EvSelect (Some ([], []))) 3 |}).
Proof.
  assert (H : forall h, on_select idle_env h = Some ([], []))
    by (intros h; reflexivity).
  split; [exact H|].
  exact (idle_relay_never_ends 16384 idle_env 3%nat world0 H).
Defined.

Lemma every_arrival_is_submitted_in_order_witness :
  pool_open proxy_init = true
  /\ submitted (snd (start true true
                       [Connection idle_env; AcceptError;
                        Connection (scripted hangup_script); Interrupt;
                        Connection idle_env]
                       proxy_init))
     = submitted proxy_init
       ++ accepted_before_stop
            [Connection idle_env; AcceptError;
             Connection (scripted hangup_script); Interrupt;
             Connection idle_env].
Proof.
  split; [reflexivity|].
  apply (every_arrival_is_submitted_in_order
           [Connection idle_env; AcceptError;
            Connection (scripted hangup_script); Interrupt;
            Connection idle_env] proxy_init).
  reflexivity.
Defined.
